(** * Workflow Logger: aggregation of execution reports into one log row

    A shallow embedding of [WorkflowLogger.execute] and [insertLog] (the
    TypeScript source of the n8n node) together with the properties that the
    specification states about them.

    Vocabulary.  The specification renames some identifiers of the source;
    the embedding keeps the names of the source:
      - spec [runIdentifier] / [run_identifier]  is source [script_id];
      - spec [totalInput], [newItems], [exactDuplicates], [updatedItems],
        [failedItems], [eventSummary], [sentItems] are source
        [total_input], [new_items], [exact_duplicates], [updated_items],
        [failed_items], [event_summary], [sent_items];
      - spec [allItems] is the local [allTransactionItems];
      - spec "Insertable record" is [ILogData]; spec "Sink" is [insertLog].

    Modelling choices.
      - A JavaScript [number] that counts items is an integer of [Z]: the
        additions of the loop are exact while the sums stay within 2^53,
        which [counts_exact] states where the order of additions matters.
      - The object [mergedEventSummary] is a plain [{}] used as a map: it
        is a [gmap] of its own properties, read and written as JavaScript
        does for an object whose prototype is [Object.prototype], so an
        event named like a member of the prototype finds that member.  The
        input maps ([Record<string, number>]) are [gmap string Z].  The
        model keeps the mapping, not the order in which JavaScript
        enumerates or prints the keys.
      - Strings are UTF-8 texts.  [parseInt] rounds the integer it reads to
        the nearest double; a text of more than 308 digits, which
        JavaScript reads as Infinity, is outside the model.
      - [JSON.stringify], the clock, the n8n execution context and the
        mysql2 driver are the host's: they are fields of [Runtime] and
        [IExecuteFunctions], and every theorem holds for all of them. *)

From Stdlib Require Import String.
From stdpp Require Import gmap strings list fin_maps.
From Stdlib Require Import ZArith Ascii.
From Stdlib Require DecimalString DecimalPos DecimalZ.

Local Open Scope string_scope.
Local Open Scope list_scope.
Local Open Scope Z_scope.

(** ** JavaScript primitives used by the node *)

(** The numbers [parseInt] can return: [NaN] or an integer. *)
Inductive jsnum : Type :=
  | NaN
  | Num (z : Z).

Global Instance jsnum_eq_dec : EqDecision jsnum.
Proof. solve_decision. Defined.

(** Truthiness of a [number | null] value: [null], [NaN] and [0] are falsy. *)
Definition truthy_num (v : option jsnum) : bool :=
  match v with
  | Some (Num z) => negb (z =? 0)
  | Some NaN => false
  | None => false
  end.

(** Truthiness of an optional string: [undefined] and [""] are falsy. *)
Definition truthy_str (v : option string) : bool :=
  match v with
  | Some EmptyString => false
  | Some (String _ _) => true
  | None => false
  end.

(** [x || 0] on an optional number: a missing or zero [x] gives [0]. *)
Definition or_zero (x : option Z) : Z :=
  match x with
  | Some z => if z =? 0 then 0 else z
  | None => 0
  end.

(** [x ?? 0] on an optional number: only a missing [x] gives [0]. *)
Definition nullish_zero (x : option Z) : Z :=
  match x with
  | Some z => z
  | None => 0
  end.

(** [s || d] on an optional string. *)
Definition or_str (s : option string) (d : string) : string :=
  if truthy_str s then default d s else d.

(** *** [parseInt(s, 10)] *)

(** The white space that [parseInt] skips (StrWhiteSpaceChar: WhiteSpace and
    LineTerminator), by the length of its UTF-8 encoding.  One byte: TAB,
    LF, VT, FF, CR, SP. *)
Definition is_white_space (c : ascii) : bool :=
  let n := N_of_ascii c in
  ((n =? 9) || (n =? 10) || (n =? 11) || (n =? 12) || (n =? 13) || (n =? 32))%N.

(** Two bytes: U+00A0 (C2 A0). *)
Definition is_white_space2 (c1 c2 : ascii) : bool :=
  ((N_of_ascii c1 =? 194) && (N_of_ascii c2 =? 160))%N.

(** Three bytes: U+1680 (E1 9A 80), U+2000 to U+200A (E2 80 80 to E2 80 8A),
    U+2028, U+2029, U+202F (E2 80 A8, A9, AF), U+205F (E2 81 9F),
    U+3000 (E3 80 80) and U+FEFF (EF BB BF). *)
Definition is_white_space3 (c1 c2 c3 : ascii) : bool :=
  let a := N_of_ascii c1 in
  let b := N_of_ascii c2 in
  let c := N_of_ascii c3 in
  (((a =? 225) && (b =? 154) && (c =? 128))
   || ((a =? 226) && (b =? 128)
       && (((128 <=? c) && (c <=? 138)) || (c =? 168) || (c =? 169)
           || (c =? 175)))
   || ((a =? 226) && (b =? 129) && (c =? 159))
   || ((a =? 227) && (b =? 128) && (c =? 128))
   || ((a =? 239) && (b =? 187) && (c =? 191)))%N.

Definition digit_value (c : ascii) : option Z :=
  let n := N_of_ascii c in
  if ((48 <=? n) && (n <=? 57))%N then Some (Z.of_N n - 48) else None.

Fixpoint skip_white_space (s : string) : string :=
  match s with
  | String c1 s1 =>
      if is_white_space c1 then skip_white_space s1
      else
        match s1 with
        | String c2 s2 =>
            if is_white_space2 c1 c2 then skip_white_space s2
            else
              match s2 with
              | String c3 s3 =>
                  if is_white_space3 c1 c2 c3 then skip_white_space s3
                  else s
              | EmptyString => s
              end
        | EmptyString => s
        end
  | EmptyString => EmptyString
  end.

(** Reads the longest prefix of decimal digits of [s], with [acc] the value
    of the digits read so far and [seen] whether one was read. *)
Fixpoint read_digits (s : string) (seen : bool) (acc : Z) : option Z :=
  match s with
  | String c s' =>
      match digit_value c with
      | Some d => read_digits s' true (10 * acc + d)
      | None => if seen then Some acc else None
      end
  | EmptyString => if seen then Some acc else None
  end.

(** The Number value of an integer: the integer itself up to 2^53, and above
    it the nearest value with a significand of 53 bits, ties going to the
    even significand. *)
Definition nearest_double (z : Z) : Z :=
  let m := Z.abs z in
  if m <? 2 ^ 53 then z
  else
    let e := Z.log2 m - 52 in
    let q := Z.shiftr m e in
    let r := Z.land m (Z.ones e) in
    let half := Z.shiftl 1 (e - 1) in
    let q' := if (half <? r) || ((r =? half) && Z.odd q) then q + 1 else q in
    Z.sgn z * Z.shiftl q' e.

Definition parseInt (s : string) : jsnum :=
  let t := skip_white_space s in
  let '(sign, body) :=
    match t with
    | String "-" r => (-1, r)
    | String "+" r => (1, r)
    | _ => (1, t)
    end in
  match read_digits body false 0 with
  | Some n => Num (nearest_double (sign * n))
  | None => NaN
  end.

(** ** Data model: the interfaces of the source *)

(** Arbitrary JSON, the [any] of [allTransactionItems: any[]]. *)
#[warnings="-register-all"]
Inductive json : Type :=
  | JNull
  | JBool (b : bool)
  | JNumber (z : Z)
  | JString (s : string)
  | JArray (l : list json)
  | JObject (fields : list (string * json)).

Record ISummary : Type := {
  total_input : option Z;
  new_items : option Z;
  exact_duplicates : option Z;
  updated_items : option Z;
  event_summary : option (gmap string Z);
  failed_items : option Z
}.

Record IExecution : Type := {
  mode : option string;
  script_id : option string
}.

(** [details.sent_items?.items]: both levels are optional. *)
Record SentItems : Type := {
  items : option (list json)
}.

Record Details : Type := {
  sent_items : option SentItems
}.

(** [items[i].json]: one report of an upstream batch. *)
Record Report : Type := {
  summary : option ISummary;
  execution : option IExecution;
  details : option Details
}.

Module ILogData.

Record t : Type := mk {
  script_id : Z;
  execution_mode : string;
  execution_type : string;
  workflow_name : string;
  status : string;
  items_processed : Z;
  items_new : Z;
  items_duplicates : Z;
  items_updated : Z;
  event_summary : string;
  full_details : string
}.

End ILogData.

(** The empty objects of [input.summary || {}], [input.execution || {}] and
    [input.details || {}]. *)
Definition empty_summary : ISummary :=
  {| total_input := None; new_items := None; exact_duplicates := None;
     updated_items := None; event_summary := None; failed_items := None |}.

Definition empty_execution : IExecution :=
  {| mode := None; script_id := None |}.

Definition empty_details : Details :=
  {| sent_items := None |}.

(** ** The object [mergedEventSummary] *)

(** The decimal text of an integer, "0", "42", "-7": what [String(z)] and
    [+] with a string make of an integer below 10^21. *)
Definition decimal_text (z : Z) : string :=
  DecimalString.NilZero.string_of_int (Z.to_int z).

(** A value held by [mergedEventSummary]: a number, or the string that [+]
    makes when its left operand is a method inherited from
    [Object.prototype]: the text of the method [member] followed by
    [suffix]. *)
Inductive jsval : Type :=
  | VNumber (z : Z)
  | VText (member : string) (suffix : string).

Global Instance jsval_eq_dec : EqDecision jsval.
Proof. solve_decision. Defined.

(** The methods of [Object.prototype]; its one other member is the accessor
    [__proto__]. *)
Definition Object_prototype_methods : list string :=
  ["constructor"; "__defineGetter__"; "__defineSetter__"; "hasOwnProperty";
   "__lookupGetter__"; "__lookupSetter__"; "isPrototypeOf";
   "propertyIsEnumerable"; "toString"; "valueOf"; "toLocaleString"].

Definition is_prototype_method (event : string) : bool :=
  existsb (String.eqb event) Object_prototype_methods.

Definition is_prototype_member (event : string) : bool :=
  is_prototype_method event || String.eqb event "__proto__".

(** ** The aggregation loop (source lines 126-172) *)

(** The locals that the loop updates. *)
Record Locals : Type := {
  totalItemsProcessed : Z;
  totalItemsNew : Z;
  totalItemsDuplicates : Z;
  totalItemsUpdated : Z;
  allTransactionItems : list json;
  mergedEventSummary : gmap string jsval;
  hasFailures : bool;
  firstExecution : option IExecution;
  scriptId : option jsnum
}.

Definition initial_locals : Locals :=
  {| totalItemsProcessed := 0; totalItemsNew := 0;
     totalItemsDuplicates := 0; totalItemsUpdated := 0;
     allTransactionItems := []; mergedEventSummary := ∅;
     hasFailures := false; firstExecution := None; scriptId := None |}.

(** One iteration of
    [mergedEventSummary[event] = (mergedEventSummary[event] || 0) + count].
    The read finds the own property, or else what [Object.prototype] has
    under that name, or else [undefined]:
      - a number [z]: [(z || 0) + count] is a number;
      - a string (never empty here): [+] appends the text of [count];
      - nothing at all: [0 + count];
      - an inherited method: the function is truthy and [+] turns it into
        its text, followed by the text of [count]; the string becomes an
        own property;
      - the inherited accessor [__proto__]: the string goes to the setter,
        which ignores a value that is not an object, so nothing is stored. *)
Definition merge_entry (event : string) (count : Z)
    (merged : gmap string jsval) : gmap string jsval :=
  match merged !! event with
  | Some (VNumber z) => <[event := VNumber (or_zero (Some z) + count)]> merged
  | Some (VText m s) => <[event := VText m (s +:+ decimal_text count)]> merged
  | None =>
      if String.eqb event "__proto__" then merged
      else if is_prototype_method event
      then <[event := VText event (decimal_text count)]> merged
      else <[event := VNumber (or_zero None + count)]> merged
  end.

(** [for (const [event, count] of Object.entries(summary.event_summary))]. *)
Definition merge_events (merged : gmap string jsval) (es : gmap string Z)
  : gmap string jsval :=
  map_fold merge_entry merged es.

(** The body of the [for] loop at index [i]. *)
Definition loop_body (i : nat) (input : Report) (st : Locals) : Locals :=
  let summary_ := default empty_summary (summary input) in
  let execution_ := default empty_execution (execution input) in
  let details_ := default empty_details (details input) in
  let firstExecution' :=
    if (i =? 0)%nat then Some execution_ else firstExecution st in
  let scriptId' :=
    if (i =? 0)%nat then
      (if truthy_str (script_id execution_)
       then Some (parseInt (default "" (script_id execution_)))
       else None)
    else scriptId st in
  let hasFailures' :=
    if nullish_zero (failed_items summary_) >? 0 then true
    else hasFailures st in
  let merged' :=
    match event_summary summary_ with
    | Some es => merge_events (mergedEventSummary st) es
    | None => mergedEventSummary st
    end in
  let sentItems :=
    match sent_items details_ with
    | Some si => default [] (items si)
    | None => []
    end in
  {| totalItemsProcessed :=
       totalItemsProcessed st + or_zero (total_input summary_);
     totalItemsNew := totalItemsNew st + or_zero (new_items summary_);
     totalItemsDuplicates :=
       totalItemsDuplicates st + or_zero (exact_duplicates summary_);
     totalItemsUpdated :=
       totalItemsUpdated st + or_zero (updated_items summary_);
     allTransactionItems := allTransactionItems st ++ sentItems;
     mergedEventSummary := merged';
     hasFailures := hasFailures';
     firstExecution := firstExecution';
     scriptId := scriptId' |}.

(** [for (let i = 0; i < items.length; i++)], started at index [i]. *)
Fixpoint loop (i : nat) (inputs : list Report) (st : Locals) : Locals :=
  match inputs with
  | [] => st
  | input :: rest => loop (S i) rest (loop_body i input st)
  end.

Definition aggregate (inputs : list Report) : Locals :=
  loop 0 inputs initial_locals.

(** ** Errors, effects and the host *)

(** The errors of the node: the [NodeOperationError] that [execute] raises
    itself, and whatever the host raises (credentials, driver, server). *)
Inductive Error : Type :=
  | NodeOperationError (message : string)
  | HostError (message : string).

(** [error.message]. *)
Definition error_message (e : Error) : string :=
  match e with
  | NodeOperationError m => m
  | HostError m => m
  end.

(** The credential [mySqlApi] as [insertLog] reads it. *)
Record Credentials : Type := {
  host : string;
  port : Z;
  user : string;
  password : string
}.

(** The argument of [mysql.createConnection]. *)
Record ConnectionConfig : Type := {
  cfg_host : string;
  cfg_port : Z;
  cfg_database : string;
  cfg_user : string;
  cfg_password : string
}.

(** A value bound to a [?] of the statement. *)
Inductive SqlValue : Type :=
  | SqlNumber (z : Z)
  | SqlText (s : string).

(** The statement [INSERT INTO db.table (columns) VALUES (?, ..., ?)]. *)
Record InsertQuery : Type := {
  into_database : string;
  into_table : string;
  columns : list string;
  placeholders : nat
}.

(** What the node passes to [JSON.stringify]. *)
Inductive Serializable : Type :=
  | OfRecord (m : gmap string jsval)
  | OfArray (l : list json)
  | OfLogData (d : ILogData.t).

(** The observable calls of one invocation, in order. *)
Inductive Event : Type :=
  | LogInfo (message : string) (logData : string)
  | LogError (message : string) (error : Error)
  | Connect (cfg : ConnectionConfig)
  | Execute (query : InsertQuery) (values : list SqlValue)
  | EndConnection.

(** The JavaScript runtime and the mysql2 driver.  [None] is a call that
    returns normally, [Some m] one that throws an error of message [m]. *)
Record Runtime : Type := {
  JSON_stringify : Serializable → string;
  toISOString_now : string;
  require_mysql2 : option string;
  createConnection : ConnectionConfig → option string;
  connection_execute : InsertQuery → list SqlValue → option string;
  connection_end : option string
}.

Record Options : Type := {
  failOnError : option bool;
  verboseLogging : option bool
}.

(** The n8n execution context [this]: input items, node parameters,
    workflow data and credentials. *)
Record IExecuteFunctions : Type := {
  getInputData : list Report;
  param_database : string;
  param_table : string;
  param_executionMode : string;
  param_options : Options;
  getMode : string;
  getWorkflow_name : option string;
  getCredentials : string → string + Credentials
}.

(** Computations that log, talk to the database and may throw: the trace of
    events so far and either the error thrown or the value returned. *)
Definition M (A : Type) : Type := list Event * (Error + A).

Definition ret {A} (a : A) : M A := ([], inr a).

Definition throw {A} (e : Error) : M A := ([], inl e).

Definition bind {A B} (m : M A) (k : A → M B) : M B :=
  match m with
  | (t, inl e) => (t, inl e)
  | (t, inr a) => let '(t', r) := k a in (t ++ t', r)
  end.

Notation "'do' x <- m ; k" := (bind m (fun x => k))
  (at level 10, x name, m at level 100, k at level 200).
Notation "'run' m ; k" := (bind m (fun _ => k))
  (at level 10, m at level 100, k at level 200).

(** A call observed as [ev] that throws when the host says so. *)
Definition call (ev : Event) (failure : option string) : M unit :=
  ([ev], match failure with Some m => inl (HostError m) | None => inr tt end).

(** A call to the host that leaves no event. *)
Definition of_result {A} (r : string + A) : M A :=
  ([], match r with inl m => inl (HostError m) | inr a => inr a end).

(** [try { m } catch (error) { h error }]. *)
Definition try_catch {A} (m : M A) (h : Error → M A) : M A :=
  match m with
  | (t, inl e) => let '(t', r) := h e in (t ++ t', r)
  | (t, inr a) => (t, inr a)
  end.

(** [try { m } finally { f }]: [f] always runs; if it throws, its error
    replaces the outcome of [m]. *)
Definition try_finally {A} (m : M A) (f : M unit) : M A :=
  let '(t, r) := m in
  let '(t', rf) := f in
  (t ++ t', match rf with inl e => inl e | inr _ => r end).

Definition trace {A} (m : M A) : list Event := fst m.
Definition outcome {A} (m : M A) : Error + A := snd m.

(** The rows handed to the database by a trace. *)
Definition rows_written (t : list Event) : list (InsertQuery * list SqlValue) :=
  omap (λ ev, match ev with Execute q vs => Some (q, vs) | _ => None end) t.

(** ** [insertLog] (source lines 258-304) *)

Definition insert_columns : list string :=
  ["script_id"; "execution_mode"; "execution_type"; "workflow_name"; "status";
   "items_processed"; "items_new"; "items_duplicates"; "items_updated";
   "event_summary"; "full_details"].

Definition insert_query (database table : string) : InsertQuery :=
  {| into_database := database; into_table := table;
     columns := insert_columns; placeholders := 11 |}.

Definition insert_values (logData : ILogData.t) : list SqlValue :=
  [SqlNumber (ILogData.script_id logData);
   SqlText (ILogData.execution_mode logData);
   SqlText (ILogData.execution_type logData);
   SqlText (ILogData.workflow_name logData);
   SqlText (ILogData.status logData);
   SqlNumber (ILogData.items_processed logData);
   SqlNumber (ILogData.items_new logData);
   SqlNumber (ILogData.items_duplicates logData);
   SqlNumber (ILogData.items_updated logData);
   SqlText (ILogData.event_summary logData);
   SqlText (ILogData.full_details logData)].

Definition insertLog (this : IExecuteFunctions) (rt : Runtime)
    (database table : string) (logData : ILogData.t) : M unit :=
  do credentials <- of_result (getCredentials this "mySqlApi");
  run of_result
        (match require_mysql2 rt with Some m => inl m | None => inr tt end);
  let cfg :=
    {| cfg_host := host credentials; cfg_port := port credentials;
       cfg_database := database; cfg_user := user credentials;
       cfg_password := password credentials |} in
  run call (Connect cfg) (createConnection rt cfg);
  try_finally
    (let query := insert_query database table in
     let values := insert_values logData in
     call (Execute query values) (connection_execute rt query values))
    (call EndConnection (connection_end rt)).

(** ** [WorkflowLogger.execute] (source lines 114-255) *)

(** The [json] of the single output item. *)
Inductive ResultJson : Type :=
  | ResultSuccess (logged_at : string) (script_id : Z)
      (batches_aggregated : nat) (log_data : ILogData.t)
  | ResultFailure (error : string) (script_id : option jsnum).

Record INodeExecutionData : Type := {
  json_ : ResultJson;
  pairedItem : nat
}.

Definition missing_script_id_message : string :=
  "Could not extract script_id from input data. Make sure this node receives data with execution information.".

Definition MissingScriptId : Error :=
  NodeOperationError missing_script_id_message.

(** [if (b)] on an optional boolean. *)
Definition truthy_bool (b : option bool) : bool := default false b.

(** The number behind a truthy [number | null]: what [scriptId] is once
    [if (!scriptId) throw ...] has been passed. *)
Definition truthy_number (v : option jsnum) : option Z :=
  match v with
  | Some (Num z) => if z =? 0 then None else Some z
  | Some NaN => None
  | None => None
  end.

(** [let mode = executionMode;
     if (mode === 'auto' && firstExecution) mode = firstExecution.mode || 'regular']. *)
Definition resolve_mode (executionMode : string)
    (firstExecution_ : option IExecution) : string :=
  match firstExecution_ with
  | Some fe =>
      if String.eqb executionMode "auto" then or_str (mode fe) "regular"
      else executionMode
  | None => executionMode
  end.

(** [const status = hasFailures ? 'failed' : 'success']. *)
Definition status_of (hasFailures_ : bool) : string :=
  if hasFailures_ then "failed" else "success".

(** The record built at source lines 185-215 from the locals of the loop and
    the validated [scriptId]. *)
Definition build_log_data (this : IExecuteFunctions) (rt : Runtime)
    (st : Locals) (scriptId_ : Z) : ILogData.t :=
  let mode_ := resolve_mode (param_executionMode this) (firstExecution st) in
  let executionType :=
    if String.eqb (getMode this) "manual" then "manual" else "scheduled" in
  let workflowName := or_str (getWorkflow_name this) "Unknown" in
  let status := status_of (hasFailures st) in
  ILogData.mk scriptId_ mode_ executionType workflowName status
    (totalItemsProcessed st) (totalItemsNew st)
    (totalItemsDuplicates st) (totalItemsUpdated st)
    (JSON_stringify rt (OfRecord (mergedEventSummary st)))
    (JSON_stringify rt (OfArray (allTransactionItems st))).

(** The body of [try { ... }]: it returns [results] after the push. *)
Definition try_block (this : IExecuteFunctions) (rt : Runtime) (st : Locals)
  : M (list INodeExecutionData) :=
  do scriptId_ <-
    match truthy_number (scriptId st) with
    | None => throw MissingScriptId
    | Some n => ret n
    end;
  let logData := build_log_data this rt st scriptId_ in
  run (if truthy_bool (verboseLogging (param_options this))
       then call (LogInfo "Workflow Logger - Logging aggregated data"
                    (JSON_stringify rt (OfLogData logData))) None
       else ret tt);
  run insertLog this rt (param_database this) (param_table this) logData;
  ret [ {| json_ := ResultSuccess (toISOString_now rt) scriptId_
                      (List.length (getInputData this)) logData;
           pairedItem := 0 |} ].

(** The body of [catch (error) { ... }]; [results] is still empty there. *)
Definition catch_block (this : IExecuteFunctions) (st : Locals) (error : Error)
  : M (list INodeExecutionData) :=
  if truthy_bool (failOnError (param_options this)) then
    throw (NodeOperationError
             ("Failed to log execution: " +:+ error_message error))
  else
    run call (LogError "Workflow Logger - Error:" error) None;
    ret [ {| json_ := ResultFailure (error_message error) (scriptId st);
             pairedItem := 0 |} ].

Definition execute (this : IExecuteFunctions) (rt : Runtime)
  : M (list (list INodeExecutionData)) :=
  let st := aggregate (getInputData this) in
  do results <- try_catch (try_block this rt st) (catch_block this st);
  ret [results].

(** ** Observations used to state the properties *)

(** A numeric field of [report.summary], a missing level counted as 0. *)
Definition summary_field (f : ISummary → option Z) (r : Report) : Z :=
  default 0 (summary r ≫= f).

Definition Zsum (l : list Z) : Z := foldr Z.add 0 l.

(** The sum of a numeric field over all reports. *)
Definition sum_over (f : ISummary → option Z) (inputs : list Report) : Z :=
  Zsum (summary_field f <$> inputs).

(** [report.summary.event_summary], a missing level being the empty map. *)
Definition report_events (r : Report) : gmap string Z :=
  default ∅ (summary r ≫= event_summary).

(** The count of [event] in a report, 0 when the report lacks the key. *)
Definition event_count (event : string) (r : Report) : Z :=
  default 0 (report_events r !! event).

Definition has_event (event : string) (r : Report) : bool :=
  bool_decide (is_Some (report_events r !! event)).

(** [report.details.sent_items.items], a missing level being the empty list. *)
Definition report_items (r : Report) : list json :=
  default [] ((details r ≫= sent_items) ≫= items).

(** [execution.script_id] and [execution.mode] of the first report. *)
Definition first_script_id (inputs : list Report) : option string :=
  (head inputs ≫= execution) ≫= script_id.

Definition first_mode (inputs : list Report) : option string :=
  (head inputs ≫= execution) ≫= mode.

(** The record [logData] that the [try] block of an invocation builds, if it
    gets past the validation of [scriptId]. *)
Definition logData_of (this : IExecuteFunctions) (rt : Runtime)
  : option ILogData.t :=
  let st := aggregate (getInputData this) in
  build_log_data this rt st <$> truthy_number (scriptId st).

(** The invocation throws the error of source lines 178-183. *)
Definition raises_missing_script_id (this : IExecuteFunctions) (rt : Runtime)
  : Prop :=
  outcome (try_block this rt (aggregate (getInputData this)))
  = inl MissingScriptId.

(** What [mergedEventSummary] holds under [event] after one assignment of
    the loop, from what it held. *)
Definition entry_after (event : string) (own : option jsval) (count : Z)
  : option jsval :=
  match own with
  | Some (VNumber z) => Some (VNumber (or_zero (Some z) + count))
  | Some (VText m s) => Some (VText m (s +:+ decimal_text count))
  | None =>
      if String.eqb event "__proto__" then None
      else if is_prototype_method event
      then Some (VText event (decimal_text count))
      else Some (VNumber (or_zero None + count))
  end.

(** The entry of one key while event summaries are merged. *)
Definition key_total (event : string) (acc : option jsval)
    (ms : list (gmap string Z)) : option jsval :=
  foldl (λ a m, match m !! event with
                | Some c => entry_after event a c
                | None => a
                end) acc ms.

(** *** The statements of the specification that the code does not satisfy,
    written as the specification words them *)

(** "lacks a parseable execution.runIdentifier (the field is absent or
    non-numeric)": no integer can be read from the field. *)
Definition spec_lacks_parseable_identifier (inputs : list Report) : Prop :=
  ¬ ∃ s n, first_script_id inputs = Some s ∧ parseInt s = Num n.

(** "the resolved mode equals the caller-specified mode setting when that
    setting is not auto; when the setting is auto, the first report's
    execution.mode, or regular if that field is absent". *)
Definition spec_resolved_mode (setting : string) (inputs : list Report)
  : string :=
  if String.eqb setting "auto" then default "regular" (first_mode inputs)
  else setting.

(** A report in which every optional field is missing: each of [summary],
    [execution] and [details] is absent, or present with nothing inside. *)
Definition all_fields_missing (r : Report) : Prop :=
  (summary r = None ∨ summary r = Some empty_summary)
  ∧ (execution r = None ∨ execution r = Some empty_execution)
  ∧ (details r = None ∨ details r = Some empty_details
     ∨ details r = Some {| sent_items := Some {| items := None |} |}).

(** What a report can change besides the identity of the run: the four
    totals, the merged event summary, the collected items and the flag. *)
Definition contribution (st : Locals)
  : Z * Z * Z * Z * gmap string jsval * list json * bool :=
  (totalItemsProcessed st, totalItemsNew st, totalItemsDuplicates st,
   totalItemsUpdated st, mergedEventSummary st, allTransactionItems st,
   hasFailures st).

(** The sum of the magnitudes of all the counts of a report. *)
Definition magnitude (r : Report) : Z :=
  Z.abs (summary_field total_input r) + Z.abs (summary_field new_items r)
  + Z.abs (summary_field exact_duplicates r)
  + Z.abs (summary_field updated_items r)
  + map_fold (λ _ c a, Z.abs c + a) 0 (report_events r).

(** The counts of the reports are small enough for every sum of them, in
    any order, to be an integer that a double holds exactly: in that range
    the additions of the loop are the additions of integers. *)
Definition counts_exact (inputs : list Report) : Prop :=
  Zsum (magnitude <$> inputs) ≤ 2 ^ 53.

(** The entry of a key whose counts were collected in two parts. *)
Definition add_entries (a b : option jsval) : option jsval :=
  match a, b with
  | Some (VNumber x), Some (VNumber y) => Some (VNumber (x + y))
  | Some v, None => Some v
  | None, o => o
  | Some v, Some _ => Some v
  end.

(** ** Sample data for the examples *)

Definition report_with_execution (e : IExecution) : Report :=
  {| summary := None; execution := Some e; details := None |}.

Definition report_with_summary (s : ISummary) : Report :=
  {| summary := Some s; execution := None; details := None |}.

Definition report_with_events (l : list (string * Z)) : Report :=
  report_with_summary
    {| total_input := None; new_items := None; exact_duplicates := None;
       updated_items := None; event_summary := Some (list_to_map l);
       failed_items := None |}.

Definition report_with_items (l : list json) : Report :=
  {| summary := None; execution := None;
     details := Some {| sent_items := Some {| items := Some l |} |} |}.

Definition sample_credentials : Credentials :=
  {| host := "localhost"; port := 3306; user := "n8n"; password := "secret" |}.

(** A host on which every call succeeds. *)
Definition sample_runtime : Runtime :=
  {| JSON_stringify := λ _, "{}";
     toISOString_now := "2025-01-01T00:00:00.000Z";
     require_mysql2 := None;
     createConnection := λ _, None;
     connection_execute := λ _ _, None;
     connection_end := None |}.

(** A host on which the [INSERT] fails. *)
Definition failing_runtime : Runtime :=
  {| JSON_stringify := λ _, "{}";
     toISOString_now := "2025-01-01T00:00:00.000Z";
     require_mysql2 := None;
     createConnection := λ _, None;
     connection_execute := λ _ _, Some "ER_NO_SUCH_TABLE";
     connection_end := None |}.

Definition sample_context (setting : string) (fail_on_error : option bool)
    (inputs : list Report) : IExecuteFunctions :=
  {| getInputData := inputs;
     param_database := "metrics";
     param_table := "workflow_logs";
     param_executionMode := setting;
     param_options :=
       {| failOnError := fail_on_error; verboseLogging := None |};
     getMode := "manual";
     getWorkflow_name := Some "Nightly import";
     getCredentials := λ _, inr sample_credentials |}.

(** ** Texts of identifiers *)

(** Whether a string is made of the white space that [parseInt] skips. *)
Definition all_white_space (s : string) : bool :=
  match skip_white_space s with
  | EmptyString => true
  | String _ _ => false
  end.

Definition starts_with_digit (s : string) : bool :=
  match s with
  | String c _ => bool_decide (is_Some (digit_value c))
  | EmptyString => false
  end.

Definition starts_with_sign (s : string) : bool :=
  match s with
  | String "-" _ | String "+" _ => true
  | _ => false
  end.

(** The value of a sequence of decimal digits read after [acc]. *)
Fixpoint uint_value (acc : Z) (d : Decimal.uint) : Z :=
  match d with
  | Decimal.Nil => acc
  | Decimal.D0 d' => uint_value (10 * acc + 0) d'
  | Decimal.D1 d' => uint_value (10 * acc + 1) d'
  | Decimal.D2 d' => uint_value (10 * acc + 2) d'
  | Decimal.D3 d' => uint_value (10 * acc + 3) d'
  | Decimal.D4 d' => uint_value (10 * acc + 4) d'
  | Decimal.D5 d' => uint_value (10 * acc + 5) d'
  | Decimal.D6 d' => uint_value (10 * acc + 6) d'
  | Decimal.D7 d' => uint_value (10 * acc + 7) d'
  | Decimal.D8 d' => uint_value (10 * acc + 8) d'
  | Decimal.D9 d' => uint_value (10 * acc + 9) d'
  end.

(** ** Observations on the host and on the context *)

(** The argument that [insertLog] gives to [mysql.createConnection]. *)
Definition connection_config (credentials : Credentials) (database : string)
  : ConnectionConfig :=
  {| cfg_host := host credentials; cfg_port := port credentials;
     cfg_database := database; cfg_user := user credentials;
     cfg_password := password credentials |}.

(** The connection that [insertLog] gets, when the credential is found, the
    driver loads and the server accepts. *)
Definition opened_connection (this : IExecuteFunctions) (rt : Runtime)
    (database : string) : option ConnectionConfig :=
  match getCredentials this "mySqlApi", require_mysql2 rt with
  | inr credentials, None =>
      let cfg := connection_config credentials database in
      match createConnection rt cfg with
      | None => Some cfg
      | Some _ => None
      end
  | _, _ => None
  end.

(** The same context with another [options.verboseLogging]. *)
Definition with_verboseLogging (v : option bool) (this : IExecuteFunctions)
  : IExecuteFunctions :=
  {| getInputData := getInputData this;
     param_database := param_database this;
     param_table := param_table this;
     param_executionMode := param_executionMode this;
     param_options :=
       {| failOnError := failOnError (param_options this);
          verboseLogging := v |};
     getMode := getMode this;
     getWorkflow_name := getWorkflow_name this;
     getCredentials := getCredentials this |}.

(** The event that [logger.info] leaves for a record. *)
Definition verbose_event (rt : Runtime) (logData : ILogData.t) : Event :=
  LogInfo "Workflow Logger - Logging aggregated data"
    (JSON_stringify rt (OfLogData logData)).

(** Whether an event is a call to the database. *)
Definition is_database_event (ev : Event) : bool :=
  match ev with
  | Connect _ | Execute _ _ | EndConnection => true
  | LogInfo _ _ | LogError _ _ => false
  end.

(** A report that keeps [summary] and [details] of [r] and has the
    [execution] field [e]. *)
Definition with_execution (e : option IExecution) (r : Report) : Report :=
  {| summary := summary r; execution := e; details := details r |}.

(** The items that [execute] pushes to [results]. *)
Definition success_item (this : IExecuteFunctions) (rt : Runtime)
    (n : Z) (logData : ILogData.t) : INodeExecutionData :=
  {| json_ := ResultSuccess (toISOString_now rt) n
                (List.length (getInputData this)) logData;
     pairedItem := 0 |}.

Definition failure_item (st : Locals) (e : Error) : INodeExecutionData :=
  {| json_ := ResultFailure (error_message e) (scriptId st);
     pairedItem := 0 |}.

(** * Properties *)

(** ** JavaScript defaults on integers *)

Lemma or_zero_default (x : option Z) : or_zero x = default 0 x.
Proof.
  destruct x as [z|]; simpl; [|reflexivity].
  destruct (Z.eqb_spec z 0); congruence.
Qed.

Lemma nullish_zero_default (x : option Z) : nullish_zero x = default 0 x.
Proof. by destruct x. Qed.

Lemma truthy_number_Some (v : option jsnum) (n : Z) :
  truthy_number v = Some n ↔ v = Some (Num n) ∧ n ≠ 0.
Proof.
  destruct v as [[|z]|]; simpl; try (split; [done | intros [? _]; done]).
  destruct (Z.eqb_spec z 0); split.
  - done.
  - intros [[= ->] ?]. done.
  - intros [= ->]. done.
  - intros [[= ->] ?]. done.
Qed.

Lemma truthy_number_None (v : option jsnum) :
  truthy_number v = None ↔ v = None ∨ v = Some NaN ∨ v = Some (Num 0).
Proof.
  destruct v as [[|z]|]; simpl.
  - split; [intros _; right; left; done | done].
  - destruct (Z.eqb_spec z 0) as [->|Hz]; split.
    + intros _. right. right. done.
    + done.
    + done.
    + intros [H|[H|H]]; [done | done | congruence].
  - split; [intros _; left; done | done].
Qed.

(** [if (!scriptId)] is taken exactly when no number is left. *)
Lemma truthy_number_falsy (v : option jsnum) :
  truthy_number v = None ↔ truthy_num v = false.
Proof.
  destruct v as [[|z]|]; simpl; try done.
  by destruct (z =? 0).
Qed.

Lemma or_str_absent_or_empty (s : option string) (d : string) :
  or_str s d = match s with
               | Some (String c r) => String c r
               | _ => d
               end.
Proof. by destruct s as [[|c r]|]. Qed.

(** ** Sums *)

Lemma Zsum_app (l1 l2 : list Z) : Zsum (l1 ++ l2) = Zsum l1 + Zsum l2.
Proof. unfold Zsum. induction l1 as [|x l1 IH]; simpl; lia. Qed.

Lemma Zsum_Permutation (l1 l2 : list Z) : l1 ≡ₚ l2 → Zsum l1 = Zsum l2.
Proof. unfold Zsum. induction 1; simpl; lia. Qed.

Lemma sum_over_Permutation f (l1 l2 : list Report) :
  l1 ≡ₚ l2 → sum_over f l1 = sum_over f l2.
Proof. intros H. apply Zsum_Permutation. by apply fmap_Permutation. Qed.

(** ** Merging one event summary *)

Lemma merge_entry_lookup (merged : gmap string jsval) (event k : string)
    (count : Z) :
  merge_entry event count merged !! k
  = if decide (event = k) then entry_after event (merged !! event) count
    else merged !! k.
Proof.
  unfold merge_entry, entry_after.
  destruct (decide (event = k)) as [<-|Hne].
  - destruct (merged !! event) as [[z|m s]|] eqn:Hm;
      rewrite ?lookup_insert_eq; try done.
    destruct (String.eqb event "__proto__"); [done|].
    destruct (is_prototype_method event); by rewrite lookup_insert_eq.
  - destruct (merged !! event) as [[z|m s]|];
      rewrite ?lookup_insert_ne by done; try done.
    destruct (String.eqb event "__proto__"); [done|].
    destruct (is_prototype_method event); by rewrite lookup_insert_ne.
Qed.

Lemma merge_events_lookup (merged : gmap string jsval) (es : gmap string Z)
    (event : string) :
  merge_events merged es !! event =
    match es !! event with
    | Some c => entry_after event (merged !! event) c
    | None => merged !! event
    end.
Proof.
  unfold merge_events. revert event.
  apply (map_fold_weak_ind
           (λ (r : gmap string jsval) (m : gmap string Z), ∀ event,
              r !! event = match m !! event with
                           | Some c => entry_after event (merged !! event) c
                           | None => merged !! event
                           end)).
  - intros event. by rewrite lookup_empty.
  - intros i x m r Hi IH event. rewrite merge_entry_lookup.
    destruct (decide (i = event)) as [->|Hne].
    + rewrite lookup_insert_eq.
      specialize (IH event). rewrite Hi in IH. by rewrite IH.
    + rewrite lookup_insert_ne by done. apply IH.
Qed.

Lemma merge_events_empty (merged : gmap string jsval) :
  merge_events merged ∅ = merged.
Proof. apply map_eq. intros k. by rewrite merge_events_lookup, lookup_empty. Qed.

Lemma foldl_merge_events_lookup (ms : list (gmap string Z))
    (merged : gmap string jsval) (event : string) :
  foldl merge_events merged ms !! event = key_total event (merged !! event) ms.
Proof.
  unfold key_total. revert merged.
  induction ms as [|m ms IH]; intros merged; csimpl; [done|].
  by rewrite IH, merge_events_lookup.
Qed.

(** An event that is not named like a member of [Object.prototype] is
    counted. *)
Lemma entry_after_ordinary (event : string) (own : option Z) (count : Z) :
  is_prototype_member event = false →
  entry_after event (VNumber <$> own) count
  = Some (VNumber (default 0 own + count)).
Proof.
  unfold is_prototype_member, entry_after. intros H.
  apply orb_false_elim in H as [Hm Hp].
  destruct own as [z|]; csimpl.
  - by destruct (Z.eqb_spec z 0) as [->|].
  - by rewrite Hp, Hm.
Qed.

Lemma key_total_Some (event : string) (ms : list (gmap string Z)) (x : Z) :
  is_prototype_member event = false →
  key_total event (Some (VNumber x)) ms
  = Some (VNumber (x + Zsum ((λ m, default 0 (m !! event)) <$> ms))).
Proof.
  intros Hev. unfold key_total, Zsum. revert x.
  induction ms as [|m ms IH]; intros x; csimpl.
  - do 2 f_equal. lia.
  - destruct (m !! event) as [c|]; csimpl.
    + pose proof (entry_after_ordinary event (Some x) c Hev) as He.
      csimpl in He. rewrite He, IH. do 2 f_equal; lia.
    + rewrite IH. do 2 f_equal; lia.
Qed.

Lemma key_total_None (event : string) (ms : list (gmap string Z)) :
  is_prototype_member event = false →
  key_total event None ms
  = if existsb (λ m, bool_decide (is_Some (m !! event))) ms
    then Some (VNumber (Zsum ((λ m, default 0 (m !! event)) <$> ms)))
    else None.
Proof.
  intros Hev.
  induction ms as [|m ms IH]; csimpl; [done|].
  unfold key_total in *. csimpl.
  destruct (m !! event) as [c|] eqn:Hm; csimpl.
  - pose proof (entry_after_ordinary event None c Hev) as He.
    csimpl in He. rewrite He.
    fold (key_total event (Some (VNumber (0 + c))) ms).
    by rewrite key_total_Some.
  - apply IH.
Qed.

(** ** The loop in closed form *)

Lemma loop_totals (l : list Report) (i : nat) (st : Locals) :
  totalItemsProcessed (loop i l st)
    = totalItemsProcessed st + sum_over total_input l
  ∧ totalItemsNew (loop i l st) = totalItemsNew st + sum_over new_items l
  ∧ totalItemsDuplicates (loop i l st)
    = totalItemsDuplicates st + sum_over exact_duplicates l
  ∧ totalItemsUpdated (loop i l st)
    = totalItemsUpdated st + sum_over updated_items l.
Proof.
  revert i st. unfold sum_over, Zsum.
  induction l as [|r l IH]; intros i st; csimpl.
  - repeat split; lia.
  - destruct (IH (S i) (loop_body i r st)) as (H1 & H2 & H3 & H4).
    rewrite H1, H2, H3, H4. unfold summary_field. csimpl.
    rewrite !or_zero_default.
    destruct (summary r) as [s|]; csimpl; repeat split; lia.
Qed.

Lemma loop_items (l : list Report) (i : nat) (st : Locals) :
  allTransactionItems (loop i l st)
  = allTransactionItems st ++ concat (report_items <$> l).
Proof.
  revert i st. induction l as [|r l IH]; intros i st; csimpl.
  - by rewrite app_nil_r.
  - rewrite IH. csimpl. rewrite <- app_assoc. do 2 f_equal.
    unfold report_items.
    destruct (details r) as [d|]; csimpl; [|done].
    by destruct (sent_items d) as [si|].
Qed.

Lemma loop_failures (l : list Report) (i : nat) (st : Locals) :
  hasFailures (loop i l st)
  = hasFailures st || existsb (λ r, 0 <? summary_field failed_items r) l.
Proof.
  revert i st. induction l as [|r l IH]; intros i st; csimpl.
  - by rewrite orb_false_r.
  - rewrite IH. csimpl. rewrite nullish_zero_default.
    unfold summary_field. rewrite Z.gtb_ltb.
    destruct (summary r) as [s|]; csimpl;
      [destruct (0 <? default 0 (failed_items s))|];
      csimpl; by destruct (hasFailures st).
Qed.

Lemma loop_events (l : list Report) (i : nat) (st : Locals) :
  mergedEventSummary (loop i l st)
  = foldl merge_events (mergedEventSummary st) (report_events <$> l).
Proof.
  revert i st. induction l as [|r l IH]; intros i st; csimpl; [done|].
  rewrite IH. csimpl. f_equal. unfold report_events.
  destruct (summary r) as [s|]; csimpl.
  - destruct (event_summary s); csimpl; [done|].
    by rewrite merge_events_empty.
  - by rewrite merge_events_empty.
Qed.

(** Only the iteration at index 0 writes [firstExecution] and [scriptId]. *)
Lemma loop_identity_later (l : list Report) (i : nat) (st : Locals) :
  firstExecution (loop (S i) l st) = firstExecution st
  ∧ scriptId (loop (S i) l st) = scriptId st.
Proof.
  revert i st. induction l as [|r l IH]; intros i st; csimpl; [done|].
  destruct (IH (S i) (loop_body (S i) r st)) as [-> ->]. done.
Qed.

Lemma aggregate_nil_identity :
  firstExecution (aggregate []) = None ∧ scriptId (aggregate []) = None.
Proof. done. Qed.

Lemma aggregate_cons_identity (r : Report) (rest : list Report) :
  let e := default empty_execution (execution r) in
  firstExecution (aggregate (r :: rest)) = Some e
  ∧ scriptId (aggregate (r :: rest))
    = if truthy_str (script_id e)
      then Some (parseInt (default "" (script_id e)))
      else None.
Proof.
  unfold aggregate. csimpl.
  destruct (loop_identity_later rest 0 (loop_body 0 r initial_locals))
    as [-> ->].
  done.
Qed.

(** ** The [try] block and the [catch] block *)

Lemma rows_written_app (t1 t2 : list Event) :
  rows_written (t1 ++ t2) = rows_written t1 ++ rows_written t2.
Proof. apply omap_app. Qed.

(** [insertLog] throws only errors of the host and hands over at most one
    row, the one of [logData]. *)
Lemma insertLog_cases (this : IExecuteFunctions) (rt : Runtime)
    (database table : string) (logData : ILogData.t) :
  (outcome (insertLog this rt database table logData) = inr tt
   ∨ ∃ m, outcome (insertLog this rt database table logData)
          = inl (HostError m))
  ∧ (rows_written (trace (insertLog this rt database table logData)) = []
     ∨ rows_written (trace (insertLog this rt database table logData))
       = [(insert_query database table, insert_values logData)]).
Proof.
  unfold insertLog, of_result, call, try_finally, bind, outcome, trace.
  destruct (getCredentials this "mySqlApi") as [m|c]; simpl; [by eauto|].
  destruct (require_mysql2 rt) as [m|]; simpl; [by eauto|].
  destruct (createConnection rt _) as [m|]; simpl; [by eauto|].
  destruct (connection_execute rt _ _) as [m|];
    destruct (connection_end rt) as [m'|]; simpl; split; eauto.
Qed.

Lemma try_block_missing (this : IExecuteFunctions) (rt : Runtime)
    (st : Locals) :
  truthy_number (scriptId st) = None →
  try_block this rt st = throw MissingScriptId.
Proof. intros H. unfold try_block. by rewrite H. Qed.

Lemma try_block_valid (this : IExecuteFunctions) (rt : Runtime)
    (st : Locals) (n : Z) :
  truthy_number (scriptId st) = Some n →
  let logData := build_log_data this rt st n in
  (outcome (try_block this rt st)
     = inr [ {| json_ := ResultSuccess (toISOString_now rt) n
                           (List.length (getInputData this)) logData;
                pairedItem := 0 |} ]
   ∨ ∃ m, outcome (try_block this rt st) = inl (HostError m))
  ∧ (rows_written (trace (try_block this rt st)) = []
     ∨ rows_written (trace (try_block this rt st))
       = [(insert_query (param_database this) (param_table this),
           insert_values logData)]).
Proof.
  intros H logData. subst logData. unfold try_block. rewrite H.
  generalize (insertLog_cases this rt (param_database this)
                (param_table this) (build_log_data this rt st n)).
  unfold outcome, trace, bind, ret, call.
  cbn -[insertLog build_log_data rows_written].
  destruct (insertLog this rt (param_database this) (param_table this)
              (build_log_data this rt st n)) as [t r].
  cbn -[build_log_data rows_written].
  intros [[-> | [m ->]] Hrows];
    destruct (truthy_bool (verboseLogging (param_options this)));
    cbn -[build_log_data rows_written insert_values insert_query];
    rewrite ?app_nil_r; (split; [eauto | exact Hrows]).
Qed.

(** What [execute] returns, from what the [try] block did. *)
Lemma execute_outcome (this : IExecuteFunctions) (rt : Runtime) :
  let st := aggregate (getInputData this) in
  outcome (execute this rt)
  = match outcome (try_block this rt st) with
    | inr results => inr [results]
    | inl e =>
        if truthy_bool (failOnError (param_options this))
        then inl (NodeOperationError
                    ("Failed to log execution: " +:+ error_message e))
        else inr [[ {| json_ := ResultFailure (error_message e) (scriptId st);
                       pairedItem := 0 |} ]]
    end.
Proof.
  unfold execute, outcome, try_catch, catch_block, bind. simpl.
  destruct (try_block this rt (aggregate (getInputData this))) as [t [e|res]];
    simpl; [|done].
  by destruct (truthy_bool (failOnError (param_options this))).
Qed.

(** The [catch] block and the final [return] hand nothing to the database. *)
Lemma execute_rows (this : IExecuteFunctions) (rt : Runtime) :
  rows_written (trace (execute this rt))
  = rows_written (trace (try_block this rt (aggregate (getInputData this)))).
Proof.
  unfold execute, trace, try_catch, catch_block, bind. simpl.
  destruct (try_block this rt (aggregate (getInputData this))) as [t [e|res]];
    simpl.
  - destruct (truthy_bool (failOnError (param_options this))); simpl;
      by rewrite ?rows_written_app, ?app_nil_r.
  - by rewrite app_nil_r.
Qed.

Lemma raises_missing_script_id_iff (this : IExecuteFunctions) (rt : Runtime) :
  raises_missing_script_id this rt
  ↔ truthy_number (scriptId (aggregate (getInputData this))) = None.
Proof.
  unfold raises_missing_script_id. split.
  - intros H.
    destruct (truthy_number (scriptId (aggregate (getInputData this))))
      as [n|] eqn:Hn; [|done].
    destruct (try_block_valid this rt _ n Hn) as [[Ho | [m Ho]] _];
      rewrite Ho in H; discriminate.
  - intros H. by rewrite try_block_missing.
Qed.

(** The identifier that the loop leaves in [scriptId], read off the first
    report. *)
Lemma aggregate_scriptId (inputs : list Report) :
  scriptId (aggregate inputs)
  = match first_script_id inputs with
    | Some (String c s) => Some (parseInt (String c s))
    | _ => None
    end.
Proof.
  destruct inputs as [|r rest]; [done|].
  destruct (aggregate_cons_identity r rest) as [_ ->].
  unfold first_script_id. simpl.
  destruct (execution r) as [e|]; simpl; [|done].
  by destruct (script_id e) as [[|c s]|].
Qed.

Lemma parseInt_empty : parseInt "" = NaN.
Proof. reflexivity. Qed.

(** The validation passes exactly when a nonzero integer is read. *)
Lemma truthy_scriptId_iff (inputs : list Report) (n : Z) :
  truthy_number (scriptId (aggregate inputs)) = Some n
  ↔ ∃ s, first_script_id inputs = Some s ∧ parseInt s = Num n ∧ n ≠ 0.
Proof.
  rewrite truthy_number_Some, aggregate_scriptId. split.
  - intros [H Hn].
    destruct (first_script_id inputs) as [[|c s]|]; try done.
    injection H as H. eauto.
  - intros (s & -> & Hs & Hn). split; [|done].
    destruct s as [|c s]; [by rewrite parseInt_empty in Hs|].
    by rewrite Hs.
Qed.

(** ** The aggregate of a whole sequence *)

Lemma aggregate_totals (inputs : list Report) :
  totalItemsProcessed (aggregate inputs) = sum_over total_input inputs
  ∧ totalItemsNew (aggregate inputs) = sum_over new_items inputs
  ∧ totalItemsDuplicates (aggregate inputs) = sum_over exact_duplicates inputs
  ∧ totalItemsUpdated (aggregate inputs) = sum_over updated_items inputs.
Proof.
  destruct (loop_totals inputs 0 initial_locals) as (H1 & H2 & H3 & H4).
  unfold aggregate. rewrite H1, H2, H3, H4. simpl. repeat split; lia.
Qed.

Lemma aggregate_items (inputs : list Report) :
  allTransactionItems (aggregate inputs) = concat (report_items <$> inputs).
Proof. unfold aggregate. by rewrite loop_items. Qed.

Lemma aggregate_failures (inputs : list Report) :
  hasFailures (aggregate inputs)
  = existsb (λ r, 0 <? summary_field failed_items r) inputs.
Proof. unfold aggregate. by rewrite loop_failures. Qed.

Lemma aggregate_events (inputs : list Report) :
  mergedEventSummary (aggregate inputs)
  = foldl merge_events ∅ (report_events <$> inputs).
Proof. unfold aggregate. by rewrite loop_events. Qed.

Lemma aggregate_events_lookup (inputs : list Report) (event : string) :
  is_prototype_member event = false →
  mergedEventSummary (aggregate inputs) !! event
  = if existsb (has_event event) inputs
    then Some (VNumber (Zsum (event_count event <$> inputs)))
    else None.
Proof.
  intros Hev.
  rewrite aggregate_events, foldl_merge_events_lookup, lookup_empty.
  rewrite key_total_None by done. unfold has_event, event_count.
  rewrite <- list_fmap_compose. unfold compose.
  replace (existsb (λ m, bool_decide (is_Some (m !! event)))
             (report_events <$> inputs))
    with (existsb (λ r, bool_decide (is_Some (report_events r !! event)))
            inputs); [done|].
  induction inputs as [|r l IH]; csimpl; [done|]. by rewrite IH.
Qed.

Lemma existsb_Permutation {A} (p : A → bool) (l1 l2 : list A) :
  l1 ≡ₚ l2 → existsb p l1 = existsb p l2.
Proof.
  induction 1 as [|x l l' _ IH|x y l|l l' l'' _ IH1 _ IH2]; simpl.
  - done.
  - by rewrite IH.
  - by destruct (p x), (p y).
  - by rewrite IH1.
Qed.

Lemma missing_fields_contribute_nothing (r : Report) :
  all_fields_missing r →
  (∀ f, f empty_summary = None → summary_field f r = 0)
  ∧ report_events r = ∅
  ∧ report_items r = [].
Proof.
  intros ([Hs|Hs] & _ & [Hd|[Hd|Hd]]);
    unfold summary_field, report_events, report_items; rewrite Hs, Hd; simpl;
    (split; [intros f Hf; by rewrite ?Hf | done]).
Qed.

(** * The claims of the specification *)

(** C1.  For every report sequence, the totals of the summary are the sums
    of the reports' fields, a missing field counted as 0: [items_processed]
    is the sum of [total_input], [items_new] of [new_items],
    [items_duplicates] of [exact_duplicates] and [items_updated] of
    [updated_items].  This holds of the locals when the loop ends and of the
    record [logData] built from them, whatever the identifier [n]. *)
Theorem C1_totals_are_sums (this : IExecuteFunctions) (rt : Runtime) (n : Z) :
  let inputs := getInputData this in
  let st := aggregate inputs in
  let logData := build_log_data this rt st n in
  (totalItemsProcessed st = sum_over total_input inputs
   ∧ totalItemsNew st = sum_over new_items inputs
   ∧ totalItemsDuplicates st = sum_over exact_duplicates inputs
   ∧ totalItemsUpdated st = sum_over updated_items inputs)
  ∧ ILogData.items_processed logData = sum_over total_input inputs
  ∧ ILogData.items_new logData = sum_over new_items inputs
  ∧ ILogData.items_duplicates logData = sum_over exact_duplicates inputs
  ∧ ILogData.items_updated logData = sum_over updated_items inputs.
Proof.
  intros inputs st logData.
  pose proof (aggregate_totals inputs) as H.
  split; [exact H|].
  destruct H as (H1 & H2 & H3 & H4). subst logData. simpl.
  auto.
Qed.

(** The example of the specification: two reports under identifier 7,
    [{total_input: 10, new_items: 3}] and
    [{total_input: 5, exact_duplicates: 2}]. *)
Example totals_of_two_reports :
  let a := {| summary := Some {| total_input := Some 10; new_items := Some 3;
                                 exact_duplicates := None;
                                 updated_items := None;
                                 event_summary := None;
                                 failed_items := None |};
              execution := Some {| mode := None; script_id := Some "7" |};
              details := None |} in
  let b := report_with_summary
             {| total_input := Some 5; new_items := None;
                exact_duplicates := Some 2; updated_items := None;
                event_summary := None; failed_items := None |} in
  let st := aggregate [a; b] in
  (totalItemsProcessed st, totalItemsNew st, totalItemsDuplicates st,
   totalItemsUpdated st, hasFailures st, scriptId st)
  = (15, 3, 2, 0, false, Some (Num 7)).
Proof. reflexivity. Qed.

(** C2.  For every report sequence, [hasFailures] is true if and only if at
    least one report has [failed_items > 0] (a missing field counted as 0),
    and the computed [status] is "failed" when [hasFailures] is true and
    "success" otherwise. *)
Theorem C2_failures_and_status (this : IExecuteFunctions) (rt : Runtime)
    (n : Z) :
  let inputs := getInputData this in
  let st := aggregate inputs in
  (hasFailures st = true
   ↔ ∃ r, r ∈ inputs ∧ 0 < summary_field failed_items r)
  ∧ ILogData.status (build_log_data this rt st n)
    = (if hasFailures st then "failed" else "success").
Proof.
  intros inputs st. split; [|done].
  subst st. rewrite aggregate_failures, existsb_exists.
  split.
  - intros (r & Hin & Hr). exists r. split.
    + by apply list_elem_of_In.
    + by apply Z.ltb_lt.
  - intros (r & Hin & Hr). exists r. split.
    + by apply list_elem_of_In.
    + by apply Z.ltb_lt.
Qed.

(** C6.  For every report sequence, the collected items are the
    concatenation, in report order, of each report's
    [details.sent_items.items] (missing being the empty sequence), and
    [full_details] is the JSON text of that list; items [a, b] then [c] give
    [a, b, c]. *)
Theorem C6_items_are_concatenated (this : IExecuteFunctions) (rt : Runtime)
    (n : Z) (a b c : json) :
  let inputs := getInputData this in
  let st := aggregate inputs in
  allTransactionItems st = concat (report_items <$> inputs)
  ∧ ILogData.full_details (build_log_data this rt st n)
    = JSON_stringify rt (OfArray (concat (report_items <$> inputs)))
  ∧ allTransactionItems
      (aggregate [report_with_items [a; b]; report_with_items [c]])
    = [a; b; c].
Proof.
  intros inputs st. subst st. simpl.
  rewrite aggregate_items. done.
Qed.

(** C9.  A report in which every optional field is missing contributes 0 to
    each total, no event count and no item, and leaves [hasFailures] as it
    is: the iteration of the loop over it changes none of them, at any index
    and from any state, and the aggregate of a sequence is the one of the
    sequence without that report.  The loop has no failing path: every
    access of source lines 138-172 is guarded ([|| {}], [|| 0], [?? 0],
    [?.], [|| []]), so [loop_body] is a total function. *)
Theorem C9_missing_fields_are_neutral (r : Report) (i : nat) (st : Locals)
    (before after : list Report) :
  all_fields_missing r →
  contribution (loop_body i r st) = contribution st
  ∧ contribution (aggregate (before ++ r :: after))
    = contribution (aggregate (before ++ after)).
Proof.
  intros Hr.
  destruct (missing_fields_contribute_nothing r Hr) as (Hf & He & Hi).
  assert (Hstep : ∀ j s, contribution (loop_body j r s) = contribution s).
  { intros j s. unfold contribution, loop_body.
    destruct Hr as ([Hs|Hs] & _ & [Hd|[Hd|Hd]]); rewrite Hs, Hd; simpl;
      rewrite ?merge_events_empty, ?app_nil_r, ?Z.add_0_r; done. }
  split; [apply Hstep|].
  unfold contribution.
  destruct (aggregate_totals (before ++ r :: after)) as (-> & -> & -> & ->).
  destruct (aggregate_totals (before ++ after)) as (-> & -> & -> & ->).
  rewrite !aggregate_items, !aggregate_failures, !aggregate_events.
  unfold sum_over. rewrite !fmap_app, !fmap_cons, !Zsum_app.
  rewrite !concat_app, !existsb_app, !foldl_app. csimpl.
  rewrite He, Hi, merge_events_empty.
  rewrite !Hf by done. simpl.
  unfold Zsum. csimpl. done.
Qed.

Lemma C9_missing_fields_are_neutral_witness :
  let r := {| summary := None; execution := None; details := None |} in
  let first := report_with_execution {| mode := None; script_id := Some "7" |} in
  all_fields_missing r
  ∧ contribution (loop_body 1 r initial_locals) = contribution initial_locals
  ∧ contribution (aggregate ([first] ++ r :: [report_with_items [JNull]]))
    = contribution (aggregate ([first] ++ [report_with_items [JNull]])).
Proof.
  split.
  - unfold all_fields_missing. simpl. auto.
  - apply (C9_missing_fields_are_neutral
             {| summary := None; execution := None; details := None |} 1
             initial_locals).
    unfold all_fields_missing. simpl. auto.
Defined.

(** ** The identifier of the run *)

(** A successful result carries the validated identifier and the record
    built from it. *)
Lemma execute_success (this : IExecuteFunctions) (rt : Runtime)
    (results : list (list INodeExecutionData)) (item : INodeExecutionData)
    (logged_at : string) (n : Z) (batches : nat) (d : ILogData.t) :
  outcome (execute this rt) = inr results →
  item ∈ concat results →
  json_ item = ResultSuccess logged_at n batches d →
  let st := aggregate (getInputData this) in
  truthy_number (scriptId st) = Some n ∧ d = build_log_data this rt st n.
Proof.
  intros Hout Hin Hjson st. rewrite execute_outcome in Hout. fold st in Hout.
  destruct (truthy_number (scriptId st)) as [k|] eqn:Hk.
  - destruct (try_block_valid this rt st k Hk) as [[Ho | [m Ho]] _];
      rewrite Ho in Hout.
    + injection Hout as <-. simpl in Hin.
      apply list_elem_of_singleton in Hin. subst item. simpl in Hjson.
      injection Hjson as _ <- _ <-. done.
    + destruct (truthy_bool (failOnError (param_options this)));
        [discriminate|].
      injection Hout as <-. simpl in Hin.
      apply list_elem_of_singleton in Hin. subst item. discriminate.
  - rewrite (try_block_missing this rt st Hk) in Hout. simpl in Hout.
    destruct (truthy_bool (failOnError (param_options this)));
      [discriminate|].
    injection Hout as <-. simpl in Hin.
    apply list_elem_of_singleton in Hin. subst item. discriminate.
Qed.

Lemma raises_writes_nothing (this : IExecuteFunctions) (rt : Runtime) :
  raises_missing_script_id this rt →
  trace (try_block this rt (aggregate (getInputData this))) = []
  ∧ rows_written (trace (execute this rt)) = [].
Proof.
  intros H. apply raises_missing_script_id_iff in H.
  rewrite execute_rows, (try_block_missing this rt _ H). done.
Qed.

(** C3 as the specification states it fails: the first report has the
    parseable identifier "0", and the invocation still throws the
    missing-identifier error. *)
Lemma C3_counterexample :
  let this :=
    sample_context "auto" None
      [report_with_execution {| mode := None; script_id := Some "0" |}] in
  ¬ (raises_missing_script_id this sample_runtime
     ↔ spec_lacks_parseable_identifier (getInputData this)).
Proof.
  intros this [Hraise _].
  apply Hraise; [reflexivity|].
  exists "0", 0. split; reflexivity.
Qed.

(** C3, amended.  The invocation throws the missing-identifier error exactly
    when no nonzero integer can be read from the first report's
    [execution.script_id]: the sequence is empty, the field is absent or
    empty, [parseInt] gives [NaN], or it gives 0.  An empty sequence throws
    it, and whenever it is thrown nothing is handed to the database. *)
Theorem C3_missing_identifier (this : IExecuteFunctions) (rt : Runtime) :
  let inputs := getInputData this in
  (raises_missing_script_id this rt
   ↔ ¬ ∃ s n, first_script_id inputs = Some s ∧ parseInt s = Num n ∧ n ≠ 0)
  ∧ (inputs = [] → raises_missing_script_id this rt)
  ∧ (raises_missing_script_id this rt →
     rows_written (trace (execute this rt)) = []).
Proof.
  intros inputs. split; [|split].
  - rewrite raises_missing_script_id_iff. fold inputs. split.
    + intros H (s & n & Hs).
      assert (truthy_number (scriptId (aggregate inputs)) = Some n) as Hn
        by (apply truthy_scriptId_iff; eauto).
      congruence.
    + intros H.
      destruct (truthy_number (scriptId (aggregate inputs))) as [n|] eqn:Hn;
        [|done].
      apply truthy_scriptId_iff in Hn as (s & Hs). destruct H. eauto.
  - intros H. apply raises_missing_script_id_iff. fold inputs. by rewrite H.
  - intros H. by apply raises_writes_nothing.
Qed.

(** C10.  If the first report's [execution.script_id] parses to the integer
    0, the invocation throws the missing-identifier error and hands no row
    to the database; and every successful result has a nonzero
    [script_id], in the result and in its [log_data]. *)
Theorem C10_zero_identifier_is_rejected (this : IExecuteFunctions)
    (rt : Runtime) :
  (∀ s, first_script_id (getInputData this) = Some s →
        parseInt s = Num 0 →
        raises_missing_script_id this rt
        ∧ rows_written (trace (execute this rt)) = [])
  ∧ (∀ results item logged_at n batches d,
       outcome (execute this rt) = inr results →
       item ∈ concat results →
       json_ item = ResultSuccess logged_at n batches d →
       n ≠ 0 ∧ ILogData.script_id d ≠ 0).
Proof.
  split.
  - intros s Hs Hp.
    assert (raises_missing_script_id this rt) as Hraise.
    { apply raises_missing_script_id_iff.
      rewrite aggregate_scriptId, Hs.
      destruct s as [|c s]; [done|]. by rewrite Hp. }
    split; [done|]. by apply raises_writes_nothing.
  - intros results item logged_at n batches d Hout Hin Hjson.
    destruct (execute_success this rt results item logged_at n batches d
                Hout Hin Hjson) as [Hn ->].
    apply truthy_number_Some in Hn as [_ Hn]. done.
Qed.

Example zero_identifier_is_rejected :
  let this :=
    sample_context "auto" None
      [report_with_execution {| mode := None; script_id := Some "0" |}] in
  execute this sample_runtime
  = ([LogError "Workflow Logger - Error:" MissingScriptId],
     inr [[ {| json_ := ResultFailure missing_script_id_message (Some (Num 0));
               pairedItem := 0 |} ]]).
Proof. reflexivity. Qed.

(** ** The execution mode *)

Lemma resolved_mode_nonempty (this : IExecuteFunctions) (rt : Runtime)
    (n : Z) :
  getInputData this ≠ [] →
  ILogData.execution_mode
    (build_log_data this rt (aggregate (getInputData this)) n)
  = if String.eqb (param_executionMode this) "auto"
    then or_str (first_mode (getInputData this)) "regular"
    else param_executionMode this.
Proof.
  intros Hne. simpl.
  destruct (getInputData this) as [|r rest]; [done|].
  destruct (aggregate_cons_identity r rest) as [-> _].
  unfold resolve_mode, first_mode. simpl.
  by destruct (execution r).
Qed.

(** C4 as the specification states it fails: with the setting "auto" and a
    first report whose [execution.mode] is present but is the empty string,
    the resolved mode is "regular" and not that field. *)
Lemma C4_counterexample :
  let inputs :=
    [report_with_execution {| mode := Some ""; script_id := Some "42" |}] in
  let this := sample_context "auto" None inputs in
  inputs ≠ []
  ∧ logData_of this sample_runtime
    = Some (build_log_data this sample_runtime (aggregate inputs) 42)
  ∧ ILogData.execution_mode
      (build_log_data this sample_runtime (aggregate inputs) 42)
    = "regular"
  ∧ spec_resolved_mode "auto" inputs = ""
  ∧ ILogData.execution_mode
      (build_log_data this sample_runtime (aggregate inputs) 42)
    ≠ spec_resolved_mode (param_executionMode this) inputs.
Proof. repeat split; done. Qed.

(** C4, amended.  For every non-empty report sequence, the resolved mode is
    the caller's setting when that is not "auto"; when it is "auto", it is
    the first report's [execution.mode] if that field is present and not
    empty, and "regular" if it is absent or empty.  In particular, with
    setting "auto", first-report [script_id] "42" and [execution.mode]
    absent, the record has [script_id] 42 and mode "regular". *)
Theorem C4_resolved_mode (this : IExecuteFunctions) (rt : Runtime) :
  let inputs := getInputData this in
  let st := aggregate inputs in
  inputs ≠ [] →
  (∀ n, ILogData.execution_mode (build_log_data this rt st n)
        = if String.eqb (param_executionMode this) "auto"
          then match first_mode inputs with
               | Some (String c m) => String c m
               | _ => "regular"
               end
          else param_executionMode this)
  ∧ (param_executionMode this = "auto" →
     first_script_id inputs = Some "42" →
     first_mode inputs = None →
     ∃ d, logData_of this rt = Some d
          ∧ ILogData.script_id d = 42
          ∧ ILogData.execution_mode d = "regular").
Proof.
  intros inputs st Hne.
  assert (Hmode : ∀ n, ILogData.execution_mode (build_log_data this rt st n)
                       = if String.eqb (param_executionMode this) "auto"
                         then match first_mode inputs with
                              | Some (String c m) => String c m
                              | _ => "regular"
                              end
                         else param_executionMode this).
  { intros n. subst st inputs. rewrite resolved_mode_nonempty by done.
    by rewrite or_str_absent_or_empty. }
  split; [exact Hmode|].
  intros Hauto Hid Hm.
  assert (truthy_number (scriptId st) = Some 42) as Hn.
  { apply truthy_scriptId_iff. exists "42". by repeat split. }
  exists (build_log_data this rt st 42). split; [|split].
  - unfold logData_of. fold inputs st. by rewrite Hn.
  - done.
  - rewrite Hmode, Hauto, Hm. done.
Qed.

Lemma C4_resolved_mode_witness :
  let inputs :=
    [report_with_execution {| mode := None; script_id := Some "42" |}] in
  let this := sample_context "auto" None inputs in
  inputs ≠ []
  ∧ (∀ n, ILogData.execution_mode
            (build_log_data this sample_runtime (aggregate inputs) n)
          = "regular")
  ∧ ∃ d, logData_of this sample_runtime = Some d
         ∧ ILogData.script_id d = 42
         ∧ ILogData.execution_mode d = "regular".
Proof.
  pose proof (C4_resolved_mode
                (sample_context "auto" None
                   [report_with_execution
                      {| mode := None; script_id := Some "42" |}])
                sample_runtime) as H.
  simpl in H.
  assert (Hne : [report_with_execution
                   {| mode := None; script_id := Some "42" |}] ≠ [])
    by discriminate.
  destruct (H Hne) as [H1 H2].
  split; [exact Hne|]. split; [exact H1|].
  apply H2; reflexivity.
Defined.

(** ** Order of the reports *)

(** C5.  The claim is that permuting the reports, the first one held
    fixed, gives the same merged event summary, each key holding the sum of
    its counts.  The code breaks it for an event named like a method of
    [Object.prototype]: with the counts 1 and 2 under "constructor", the
    merged summary does not hold 3 but the text of the inherited function
    followed by "12", and in the other order by "21": the two merged
    summaries differ. *)
Theorem C5_prototype_key_is_not_summed :
  let first := report_with_execution {| mode := None; script_id := Some "7" |} in
  let a := report_with_events [("constructor", 1)] in
  let b := report_with_events [("constructor", 2)] in
  [first; a; b] ≡ₚ [first; b; a]
  ∧ head [first; a; b] = head [first; b; a]
  ∧ Zsum (event_count "constructor" <$> [first; a; b]) = 3
  ∧ mergedEventSummary (aggregate [first; a; b]) !! "constructor"
    = Some (VText "constructor" "12")
  ∧ mergedEventSummary (aggregate [first; b; a]) !! "constructor"
    = Some (VText "constructor" "21")
  ∧ mergedEventSummary (aggregate [first; a; b])
    ≠ mergedEventSummary (aggregate [first; b; a]).
Proof.
  intros first a b.
  assert (H1 : mergedEventSummary (aggregate [first; a; b]) !! "constructor"
               = Some (VText "constructor" "12")) by (by vm_compute).
  assert (H2 : mergedEventSummary (aggregate [first; b; a]) !! "constructor"
               = Some (VText "constructor" "21")) by (by vm_compute).
  split; [apply perm_skip, perm_swap|].
  split; [reflexivity|]. split; [by vm_compute|].
  split; [exact H1|]. split; [exact H2|].
  intros Heq. rewrite Heq, H2 in H1. discriminate H1.
Qed.

(** ** Failures *)

(** C7.  When an error occurs in the [try] block, it is the
    missing-identifier error or an error of the host (a failed write).  If
    [failOnError] is not set, the invocation does not throw: it returns the
    single item [{success: false, error: message, script_id: scriptId}],
    where [scriptId] is the identifier read from the first report or null.
    If [failOnError] is set, it throws, the message of the error being
    carried in the one it throws. *)
Theorem C7_failure_handling (this : IExecuteFunctions) (rt : Runtime)
    (e : Error) :
  let st := aggregate (getInputData this) in
  outcome (try_block this rt st) = inl e →
  (e = MissingScriptId ∨ ∃ m, e = HostError m)
  ∧ outcome (execute this rt)
    = (if truthy_bool (failOnError (param_options this))
       then inl (NodeOperationError
                   ("Failed to log execution: " +:+ error_message e))
       else inr [[ {| json_ := ResultFailure (error_message e) (scriptId st);
                      pairedItem := 0 |} ]])
  ∧ scriptId st = match first_script_id (getInputData this) with
                  | Some (String c s) => Some (parseInt (String c s))
                  | _ => None
                  end.
Proof.
  intros st He. split; [|split].
  - destruct (truthy_number (scriptId st)) as [n|] eqn:Hn.
    + destruct (try_block_valid this rt st n Hn) as [[Ho | [m Ho]] _];
        rewrite Ho in He; [discriminate|].
      injection He as <-. eauto.
    + rewrite (try_block_missing this rt st Hn) in He.
      injection He as <-. by left.
  - rewrite execute_outcome. fold st. by rewrite He.
  - apply aggregate_scriptId.
Qed.

Lemma C7_failure_handling_witness :
  let inputs :=
    [report_with_execution {| mode := None; script_id := Some "42" |}] in
  let this := sample_context "auto" None inputs in
  outcome (try_block this failing_runtime (aggregate inputs))
  = inl (HostError "ER_NO_SUCH_TABLE")
  ∧ outcome (execute this failing_runtime)
    = inr [[ {| json_ := ResultFailure "ER_NO_SUCH_TABLE" (Some (Num 42));
                pairedItem := 0 |} ]].
Proof.
  split; [reflexivity|].
  destruct (C7_failure_handling
              (sample_context "auto" None
                 [report_with_execution
                    {| mode := None; script_id := Some "42" |}])
              failing_runtime (HostError "ER_NO_SUCH_TABLE") eq_refl)
    as (_ & H & _).
  exact H.
Defined.

Example fail_on_error_throws :
  let inputs :=
    [report_with_execution {| mode := None; script_id := Some "42" |}] in
  outcome (execute (sample_context "auto" (Some true) inputs) failing_runtime)
  = inl (NodeOperationError "Failed to log execution: ER_NO_SUCH_TABLE")
  ∧ outcome (execute (sample_context "auto" (Some true) []) sample_runtime)
    = inl (NodeOperationError
             ("Failed to log execution: " +:+ missing_script_id_message)).
Proof. split; reflexivity. Qed.

(** ** The row *)

(** C8.  Every row handed to the database has exactly 11 columns and 11
    values in the fixed order [script_id] (the specification's
    [run_identifier]), [execution_mode], [execution_type], [workflow_name],
    [status], [items_processed], [items_new], [items_duplicates],
    [items_updated], [event_summary], [full_details]; the values are the
    fields of the record [logData] of the invocation, whose [event_summary]
    and [full_details] are the JSON texts of the merged event summary and of
    the collected items. *)
Theorem C8_row_layout (this : IExecuteFunctions) (rt : Runtime)
    (q : InsertQuery) (vs : list SqlValue) :
  (q, vs) ∈ rows_written (trace (execute this rt)) →
  let st := aggregate (getInputData this) in
  columns q
  = ["script_id"; "execution_mode"; "execution_type"; "workflow_name";
     "status"; "items_processed"; "items_new"; "items_duplicates";
     "items_updated"; "event_summary"; "full_details"]
  ∧ List.length (columns q) = 11%nat
  ∧ placeholders q = 11%nat
  ∧ List.length vs = 11%nat
  ∧ into_database q = param_database this
  ∧ into_table q = param_table this
  ∧ ∃ d, logData_of this rt = Some d
         ∧ vs = [SqlNumber (ILogData.script_id d);
                 SqlText (ILogData.execution_mode d);
                 SqlText (ILogData.execution_type d);
                 SqlText (ILogData.workflow_name d);
                 SqlText (ILogData.status d);
                 SqlNumber (ILogData.items_processed d);
                 SqlNumber (ILogData.items_new d);
                 SqlNumber (ILogData.items_duplicates d);
                 SqlNumber (ILogData.items_updated d);
                 SqlText (ILogData.event_summary d);
                 SqlText (ILogData.full_details d)]
         ∧ ILogData.event_summary d
           = JSON_stringify rt (OfRecord (mergedEventSummary st))
         ∧ ILogData.full_details d
           = JSON_stringify rt (OfArray (allTransactionItems st)).
Proof.
  intros Hin st. rewrite execute_rows in Hin. fold st in Hin.
  destruct (truthy_number (scriptId st)) as [n|] eqn:Hn.
  - destruct (try_block_valid this rt st n Hn) as [_ [Hr | Hr]];
      rewrite Hr in Hin.
    + by apply elem_of_nil in Hin.
    + apply list_elem_of_singleton in Hin. injection Hin as -> ->.
      repeat split.
      exists (build_log_data this rt st n). repeat split.
      unfold logData_of. fold st. by rewrite Hn.
  - rewrite (try_block_missing this rt st Hn) in Hin.
    by apply elem_of_nil in Hin.
Qed.

Lemma C8_row_layout_witness :
  let inputs :=
    [report_with_execution {| mode := None; script_id := Some "42" |}] in
  let this := sample_context "auto" None inputs in
  let q := insert_query "metrics" "workflow_logs" in
  let vs := [SqlNumber 42; SqlText "regular"; SqlText "manual";
             SqlText "Nightly import"; SqlText "success";
             SqlNumber 0; SqlNumber 0; SqlNumber 0; SqlNumber 0;
             SqlText "{}"; SqlText "{}"] in
  (q, vs) ∈ rows_written (trace (execute this sample_runtime))
  ∧ List.length (columns q) = 11%nat
  ∧ List.length vs = 11%nat.
Proof.
  intros inputs this q vs.
  assert (Hin : (q, vs) ∈ rows_written (trace (execute this sample_runtime)))
    by (vm_compute; apply list_elem_of_here).
  destruct (C8_row_layout this sample_runtime q vs Hin)
    as (_ & Hc & _ & Hv & _).
  split; [exact Hin|]. split; [exact Hc | exact Hv].
Defined.

(** At most one row is handed over per invocation. *)
Lemma at_most_one_row (this : IExecuteFunctions) (rt : Runtime) :
  (List.length (rows_written (trace (execute this rt))) <= 1)%nat.
Proof.
  rewrite execute_rows.
  destruct (truthy_number (scriptId (aggregate (getInputData this))))
    as [n|] eqn:Hn.
  - destruct (try_block_valid this rt _ n Hn) as [_ [-> | ->]]; simpl; lia.
  - rewrite (try_block_missing this rt _ Hn). simpl. lia.
Qed.

(** * Further properties of [insertLog] and [execute] *)

(** ** The connection *)

(** X1.  [insertLog] closes the connection whenever it opened one, also when
    the [INSERT] throws: if the credential is found, the driver loads and
    the server accepts, the calls are [createConnection], [execute] with the
    row of [logData], [end], in that order; otherwise no statement is
    executed and no connection is closed, and without the credential or the
    driver the database is not contacted at all. *)
Theorem X1_connection_is_closed (this : IExecuteFunctions) (rt : Runtime)
    (database table : string) (logData : ILogData.t) :
  let t := trace (insertLog this rt database table logData) in
  match opened_connection this rt database with
  | Some cfg =>
      t = [Connect cfg;
           Execute (insert_query database table) (insert_values logData);
           EndConnection]
  | None =>
      rows_written t = []
      ∧ (EndConnection ∉ t)
      ∧ ((¬ ∃ c, getCredentials this "mySqlApi" = inr c
                 ∧ require_mysql2 rt = None) → t = [])
  end.
Proof.
  unfold opened_connection, insertLog, of_result, call, try_finally, bind,
    trace, connection_config.
  destruct (getCredentials this "mySqlApi") as [m|c]; simpl.
  { split; [done|]. split; [apply not_elem_of_nil | done]. }
  destruct (require_mysql2 rt) as [m|]; simpl.
  { split; [done|]. split; [apply not_elem_of_nil | done]. }
  destruct (createConnection rt _) as [m|]; simpl.
  - split; [done|]. split.
    + intros H. apply list_elem_of_singleton in H. discriminate.
    + intros H. destruct H. eauto.
  - done.
Qed.

(** X2.  Which error [insertLog] throws once the connection is open: an
    error of [connection.end()] replaces the outcome of the [INSERT], so a
    failed [INSERT] is reported only when the connection closes cleanly, and
    a successful [INSERT] followed by a failing [end] is reported as a
    failure. *)
Theorem X2_end_error_takes_precedence (this : IExecuteFunctions)
    (rt : Runtime) (database table : string) (logData : ILogData.t)
    (cfg : ConnectionConfig) :
  opened_connection this rt database = Some cfg →
  outcome (insertLog this rt database table logData)
  = match connection_end rt,
          connection_execute rt (insert_query database table)
            (insert_values logData) with
    | Some m, _ => inl (HostError m)
    | None, Some m => inl (HostError m)
    | None, None => inr tt
    end.
Proof.
  unfold opened_connection, insertLog, of_result, call, try_finally, bind,
    outcome, connection_config.
  destruct (getCredentials this "mySqlApi") as [m|c]; simpl; [done|].
  destruct (require_mysql2 rt) as [m|]; simpl; [done|].
  destruct (createConnection rt _) as [m|]; simpl; [done|].
  intros _.
  by destruct (connection_execute rt _ _), (connection_end rt).
Qed.

Lemma X2_end_error_takes_precedence_witness :
  let rt :=
    {| JSON_stringify := λ _, "{}";
       toISOString_now := "2025-01-01T00:00:00.000Z";
       require_mysql2 := None;
       createConnection := λ _, None;
       connection_execute := λ _ _, None;
       connection_end := Some "ECONNRESET" |} in
  let this := sample_context "auto" None [] in
  let d := build_log_data this rt initial_locals 42 in
  opened_connection this rt "metrics"
  = Some (connection_config sample_credentials "metrics")
  ∧ outcome (insertLog this rt "metrics" "workflow_logs" d)
    = inl (HostError "ECONNRESET").
Proof.
  intros rt this d. split; [reflexivity|].
  exact (X2_end_error_takes_precedence this rt "metrics" "workflow_logs" d
           (connection_config sample_credentials "metrics") eq_refl).
Defined.

(** ** The invocation as a whole *)

Lemma try_block_eq (this : IExecuteFunctions) (rt : Runtime) (st : Locals) :
  try_block this rt st
  = match truthy_number (scriptId st) with
    | None => ([], inl MissingScriptId)
    | Some n =>
        let d := build_log_data this rt st n in
        let w := insertLog this rt (param_database this) (param_table this) d in
        ((if truthy_bool (verboseLogging (param_options this))
          then [verbose_event rt d] else []) ++ trace w,
         match outcome w with
         | inl e => inl e
         | inr _ => inr [success_item this rt n d]
         end)
    end.
Proof.
  unfold try_block.
  destruct (truthy_number (scriptId st)) as [n|]; [|done].
  unfold bind, ret, call, outcome, trace, verbose_event, success_item.
  cbn -[insertLog build_log_data].
  destruct (insertLog this rt (param_database this) (param_table this)
              (build_log_data this rt st n)) as [t [e|[]]];
    destruct (truthy_bool (verboseLogging (param_options this)));
    cbn -[build_log_data]; by rewrite ?app_nil_r.
Qed.

Lemma execute_eq (this : IExecuteFunctions) (rt : Runtime) :
  let st := aggregate (getInputData this) in
  execute this rt
  = match outcome (try_block this rt st) with
    | inr results => (trace (try_block this rt st), inr [results])
    | inl e =>
        if truthy_bool (failOnError (param_options this))
        then (trace (try_block this rt st),
              inl (NodeOperationError
                     ("Failed to log execution: " +:+ error_message e)))
        else (trace (try_block this rt st)
                ++ [LogError "Workflow Logger - Error:" e],
              inr [[failure_item st e]])
    end.
Proof.
  unfold execute, try_catch, catch_block, bind, ret, throw, call, outcome,
    trace, failure_item.
  destruct (try_block this rt (aggregate (getInputData this))) as [t [e|res]];
    simpl.
  - destruct (truthy_bool (failOnError (param_options this))); simpl;
      by rewrite ?app_nil_r.
  - by rewrite app_nil_r.
Qed.

(** [insertLog] leaves only calls to the database in the trace. *)
Lemma insertLog_database_events (this : IExecuteFunctions) (rt : Runtime)
    (database table : string) (logData : ILogData.t) :
  Forall (λ ev, is_database_event ev = true)
    (trace (insertLog this rt database table logData)).
Proof.
  unfold insertLog, of_result, call, try_finally, bind, trace.
  destruct (getCredentials this "mySqlApi") as [m|c]; simpl; [constructor|].
  destruct (require_mysql2 rt) as [m|]; simpl; [constructor|].
  destruct (createConnection rt _) as [m|]; simpl;
    repeat constructor.
Qed.

(** X3.  [options.verboseLogging] is observation only: it changes neither
    what the invocation returns or throws nor the calls to the database; the
    trace with the option is the trace without it after one [logger.info]
    event for the record, which is there exactly when the option is set and
    the identifier passed the validation (so before any call to the
    database, and also when the write then fails). *)
Theorem X3_verbose_logging_is_observation_only (this : IExecuteFunctions)
    (rt : Runtime) (v : option bool) :
  outcome (execute (with_verboseLogging v this) rt)
  = outcome (execute (with_verboseLogging None this) rt)
  ∧ trace (execute (with_verboseLogging v this) rt)
    = match logData_of this rt with
      | Some d => if truthy_bool v then [verbose_event rt d] else []
      | None => []
      end ++ trace (execute (with_verboseLogging None this) rt)
  ∧ filter (λ ev, is_database_event ev = true)
      (trace (execute (with_verboseLogging v this) rt))
    = filter (λ ev, is_database_event ev = true)
        (trace (execute (with_verboseLogging None this) rt)).
Proof.
  assert (Htr : ∀ w,
    trace (execute (with_verboseLogging w this) rt)
    = match logData_of this rt with
      | Some d => if truthy_bool w then [verbose_event rt d] else []
      | None => []
      end ++ trace (execute (with_verboseLogging None this) rt)
    ∧ outcome (execute (with_verboseLogging w this) rt)
      = outcome (execute (with_verboseLogging None this) rt)).
  { intros w. rewrite !execute_eq. cbv zeta. rewrite !try_block_eq.
    unfold logData_of. cbn [getInputData with_verboseLogging].
    destruct (truthy_number (scriptId (aggregate (getInputData this))))
      as [n|]; cbn -[insertLog build_log_data aggregate verbose_event].
    - change (build_log_data (with_verboseLogging w this) rt)
        with (build_log_data this rt).
      change (build_log_data (with_verboseLogging None this) rt)
        with (build_log_data this rt).
      change (insertLog (with_verboseLogging w this) rt)
        with (insertLog this rt).
      change (insertLog (with_verboseLogging None this) rt)
        with (insertLog this rt).
      unfold outcome, trace, success_item.
      cbn [getInputData with_verboseLogging].
      destruct (insertLog this rt (param_database this) (param_table this)
                  (build_log_data this rt
                     (aggregate (getInputData this)) n)) as [t [e|[]]];
        cbn -[build_log_data aggregate verbose_event];
        destruct (failOnError (param_options this)) as [[|]|],
                 w as [[|]|]; done.
    - destruct (failOnError (param_options this)) as [[|]|]; done. }
  destruct (Htr v) as [Ht Ho]. split; [exact Ho|]. split; [exact Ht|].
  rewrite Ht, filter_app.
  destruct (logData_of this rt) as [d|]; [|done].
  destruct (truthy_bool v); done.
Qed.

(** X4.  Whatever the number of input items, an invocation that returns
    returns one output branch holding exactly one item, paired with input
    item 0. *)
Theorem X4_exactly_one_output_item (this : IExecuteFunctions) (rt : Runtime)
    (results : list (list INodeExecutionData)) :
  outcome (execute this rt) = inr results →
  ∃ item, results = [[item]] ∧ pairedItem item = 0%nat.
Proof.
  rewrite execute_eq. cbv zeta. rewrite try_block_eq.
  destruct (truthy_number (scriptId (aggregate (getInputData this))))
    as [n|]; cbn -[insertLog build_log_data aggregate].
  - destruct (outcome (insertLog _ _ _ _ _)) as [e|[]].
    + destruct (truthy_bool (failOnError (param_options this))); simpl;
        [discriminate|].
      intros [= <-]. eexists. split; [reflexivity|done].
    + simpl. intros [= <-]. eexists. split; [reflexivity|done].
  - destruct (truthy_bool (failOnError (param_options this))); simpl;
      [discriminate|].
    intros [= <-]. eexists. split; [reflexivity|done].
Qed.

Lemma X4_exactly_one_output_item_witness :
  let a := report_with_execution {| mode := None; script_id := Some "42" |} in
  let this := sample_context "auto" None [a; a; a] in
  ∃ results, outcome (execute this sample_runtime) = inr results
    ∧ ∃ item, results = [[item]] ∧ pairedItem item = 0%nat.
Proof.
  intros a this. eexists. split; [reflexivity|].
  eapply (X4_exactly_one_output_item this sample_runtime). reflexivity.
Defined.

(** [insertLog] once the connection is open. *)
Lemma insertLog_opened (this : IExecuteFunctions) (rt : Runtime)
    (database table : string) (logData : ILogData.t)
    (cfg : ConnectionConfig) :
  opened_connection this rt database = Some cfg →
  insertLog this rt database table logData
  = ([Connect cfg;
      Execute (insert_query database table) (insert_values logData);
      EndConnection],
     match connection_end rt,
           connection_execute rt (insert_query database table)
             (insert_values logData) with
     | Some m, _ => inl (HostError m)
     | None, Some m => inl (HostError m)
     | None, None => inr tt
     end).
Proof.
  unfold opened_connection, insertLog, of_result, call, try_finally, bind,
    connection_config.
  destruct (getCredentials this "mySqlApi") as [m|c]; simpl; [done|].
  destruct (require_mysql2 rt) as [m|]; simpl; [done|].
  destruct (createConnection rt _) as [m|]; simpl; [done|].
  intros [= <-].
  by destruct (connection_execute rt _ _), (connection_end rt).
Qed.

(** [insertLog] when no connection is open: it throws an error of the host
    and executes nothing. *)
Lemma insertLog_not_opened (this : IExecuteFunctions) (rt : Runtime)
    (database table : string) (logData : ILogData.t) :
  opened_connection this rt database = None →
  (∃ m, outcome (insertLog this rt database table logData)
        = inl (HostError m))
  ∧ rows_written (trace (insertLog this rt database table logData)) = [].
Proof.
  unfold opened_connection, insertLog, of_result, call, try_finally, bind,
    connection_config, outcome, trace.
  destruct (getCredentials this "mySqlApi") as [m|c]; simpl; [by eauto|].
  destruct (require_mysql2 rt) as [m|]; simpl; [by eauto|].
  destruct (createConnection rt _) as [m|]; simpl; [by eauto|done].
Qed.

(** X5.  When a nonzero identifier [n] is read from the first report, the
    connection opens, and neither the [INSERT] nor [end] throws, the
    invocation returns the success item: [logged_at] is the clock's text,
    [script_id] is [n], [batches_aggregated] is the number of input items
    and [log_data] is the record; the calls to the database are
    [createConnection], [execute] with the row of the record, [end], and no
    error is logged. *)
Theorem X5_success (this : IExecuteFunctions) (rt : Runtime) (n : Z)
    (cfg : ConnectionConfig) :
  let st := aggregate (getInputData this) in
  let d := build_log_data this rt st n in
  let q := insert_query (param_database this) (param_table this) in
  truthy_number (scriptId st) = Some n →
  opened_connection this rt (param_database this) = Some cfg →
  connection_execute rt q (insert_values d) = None →
  connection_end rt = None →
  execute this rt
  = ((if truthy_bool (verboseLogging (param_options this))
      then [verbose_event rt d] else [])
     ++ [Connect cfg; Execute q (insert_values d); EndConnection],
     inr [[ {| json_ := ResultSuccess (toISOString_now rt) n
                          (List.length (getInputData this)) d;
               pairedItem := 0 |} ]]).
Proof.
  intros st d q Hn Hopen Hexec Hend.
  rewrite execute_eq. cbv zeta. fold st. rewrite try_block_eq, Hn. cbv zeta.
  fold d. rewrite (insertLog_opened this rt _ _ d cfg Hopen).
  fold q. rewrite Hexec, Hend. reflexivity.
Qed.

Lemma X5_success_witness :
  let a := report_with_execution {| mode := None; script_id := Some "42" |} in
  let this := sample_context "auto" None [a; a] in
  let d := build_log_data this sample_runtime (aggregate [a; a]) 42 in
  truthy_number (scriptId (aggregate [a; a])) = Some 42
  ∧ outcome (execute this sample_runtime)
    = inr [[ {| json_ := ResultSuccess "2025-01-01T00:00:00.000Z" 42 2 d;
                pairedItem := 0 |} ]].
Proof.
  intros a this d. split; [reflexivity|].
  rewrite (X5_success this sample_runtime 42
             (connection_config sample_credentials "metrics")
             eq_refl eq_refl eq_refl eq_refl).
  reflexivity.
Defined.

(** X6.  Success is never reported without the write: if the item returned
    is a success item, the connection was opened, the [INSERT] of the row of
    its [log_data] and the closing of the connection both returned
    normally, that row is the only one handed over, and
    [batches_aggregated] is the number of input items. *)
Theorem X6_success_implies_written (this : IExecuteFunctions) (rt : Runtime)
    (results : list (list INodeExecutionData)) (item : INodeExecutionData)
    (logged_at : string) (n : Z) (batches : nat) (d : ILogData.t) :
  outcome (execute this rt) = inr results →
  item ∈ concat results →
  json_ item = ResultSuccess logged_at n batches d →
  let q := insert_query (param_database this) (param_table this) in
  is_Some (opened_connection this rt (param_database this))
  ∧ connection_execute rt q (insert_values d) = None
  ∧ connection_end rt = None
  ∧ rows_written (trace (execute this rt)) = [(q, insert_values d)]
  ∧ batches = List.length (getInputData this)
  ∧ logged_at = toISOString_now rt.
Proof.
  intros Hout Hin Hjson q.
  destruct (execute_success this rt results item logged_at n batches d
              Hout Hin Hjson) as [Hn ->].
  rewrite execute_rows.
  rewrite execute_eq in Hout. cbv zeta in Hout.
  rewrite try_block_eq, Hn in *. cbv zeta in *.
  set (st := aggregate (getInputData this)) in *.
  set (d := build_log_data this rt st n) in *.
  destruct (opened_connection this rt (param_database this)) as [cfg|] eqn:Ho.
  - rewrite (insertLog_opened this rt _ _ d cfg Ho) in *. fold q in Hout |- *.
    unfold outcome, trace in *. cbn [fst snd] in *.
    destruct (connection_end rt) as [m|];
      [|destruct (connection_execute rt q (insert_values d)) as [m|]].
    + destruct (truthy_bool (failOnError (param_options this)));
        [discriminate|].
      injection Hout as <-. apply list_elem_of_singleton in Hin.
      subst item. discriminate.
    + destruct (truthy_bool (failOnError (param_options this)));
        [discriminate|].
      injection Hout as <-. apply list_elem_of_singleton in Hin.
      subst item. discriminate.
    + injection Hout as <-. apply list_elem_of_singleton in Hin.
      subst item. injection Hjson as <- <-.
      repeat split; [by eexists|].
      rewrite rows_written_app.
      by destruct (truthy_bool (verboseLogging (param_options this))).
  - destruct (insertLog_not_opened this rt (param_database this)
                (param_table this) d Ho) as [[m Hm] _].
    unfold outcome in *. rewrite Hm in Hout. cbn [snd] in Hout.
    destruct (truthy_bool (failOnError (param_options this)));
      [discriminate|].
    injection Hout as <-. apply list_elem_of_singleton in Hin.
    subst item. discriminate.
Qed.

Lemma X6_success_implies_written_witness :
  let a := report_with_execution {| mode := None; script_id := Some "42" |} in
  let this := sample_context "auto" None [a; a] in
  let d := build_log_data this sample_runtime (aggregate [a; a]) 42 in
  let item := {| json_ := ResultSuccess "2025-01-01T00:00:00.000Z" 42 2 d;
                 pairedItem := 0 |} in
  outcome (execute this sample_runtime) = inr [[item]]
  ∧ rows_written (trace (execute this sample_runtime))
    = [(insert_query "metrics" "workflow_logs", insert_values d)].
Proof.
  intros a this d item.
  assert (Hout : outcome (execute this sample_runtime) = inr [[item]])
    by reflexivity.
  assert (Hin : item ∈ concat [[item]]) by apply list_elem_of_here.
  destruct (X6_success_implies_written this sample_runtime [[item]] item
              "2025-01-01T00:00:00.000Z" 42 2 d Hout Hin eq_refl)
    as (_ & _ & _ & Hrows & _).
  split; [exact Hout | exact Hrows].
Defined.

Lemma try_block_trace_events (this : IExecuteFunctions) (rt : Runtime)
    (st : Locals) (message : string) (e : Error) :
  LogError message e ∉ trace (try_block this rt st).
Proof.
  rewrite try_block_eq.
  destruct (truthy_number (scriptId st)) as [n|]; [|apply not_elem_of_nil].
  cbv zeta. unfold trace at 1. cbn [fst].
  intros Hin. apply elem_of_app in Hin as [Hin | Hin].
  - destruct (truthy_bool (verboseLogging (param_options this)));
      [|by apply elem_of_nil in Hin].
    apply list_elem_of_singleton in Hin. discriminate.
  - pose proof (insertLog_database_events this rt (param_database this)
                  (param_table this) (build_log_data this rt st n)) as Hdb.
    rewrite Forall_forall in Hdb. apply Hdb in Hin. discriminate.
Qed.

(** X7.  An error is logged exactly when it is swallowed: [logger.error] is
    called with an error [e] if and only if the [try] block threw [e] and
    [failOnError] is not set, and then with the message
    "Workflow Logger - Error:"; an invocation that throws, or that succeeds,
    logs no error. *)
Theorem X7_error_logged_iff_swallowed (this : IExecuteFunctions)
    (rt : Runtime) (message : string) (e : Error) :
  LogError message e ∈ trace (execute this rt)
  ↔ outcome (try_block this rt (aggregate (getInputData this))) = inl e
    ∧ truthy_bool (failOnError (param_options this)) = false
    ∧ message = "Workflow Logger - Error:".
Proof.
  rewrite execute_eq. cbv zeta.
  pose proof (try_block_trace_events this rt
                (aggregate (getInputData this)) message e) as Hnot.
  destruct (outcome (try_block this rt (aggregate (getInputData this))))
    as [e'|res]; [|split; [done | intros [? _]; done]].
  destruct (truthy_bool (failOnError (param_options this)));
    unfold trace at 1; cbn [fst]; fold (trace (try_block this rt
      (aggregate (getInputData this)))).
  - split; [done | intros (_ & ? & _); done].
  - rewrite elem_of_app, list_elem_of_singleton. split.
    + intros [H | [= -> ->]]; done.
    + intros ([= ->] & _ & ->). by right.
Qed.

(** X8.  Every record that the [try] block builds is well formed: its
    [script_id] is not 0, its [status] is "success" or "failed", its
    [execution_type] is "manual" or "scheduled" (and "manual" only when the
    workflow runs in mode "manual"), its [workflow_name] is not empty
    ("Unknown" standing for a missing or empty name), and its
    [execution_mode] is not empty unless the node parameter itself is. *)
Theorem X8_record_is_well_formed (this : IExecuteFunctions) (rt : Runtime)
    (d : ILogData.t) :
  logData_of this rt = Some d →
  ILogData.script_id d ≠ 0
  ∧ (ILogData.status d = "success" ∨ ILogData.status d = "failed")
  ∧ (ILogData.execution_type d = "manual" ∧ getMode this = "manual"
     ∨ ILogData.execution_type d = "scheduled" ∧ getMode this ≠ "manual")
  ∧ ILogData.workflow_name d ≠ ""
  ∧ (ILogData.workflow_name d = "Unknown"
     ∨ getWorkflow_name this = Some (ILogData.workflow_name d))
  ∧ (param_executionMode this ≠ "" → ILogData.execution_mode d ≠ "").
Proof.
  unfold logData_of. cbv zeta.
  destruct (truthy_number (scriptId (aggregate (getInputData this))))
    as [n|] eqn:Hn; [|done].
  intros [= <-]. split; [|split; [|split; [|split; [|split]]]].
  - apply truthy_number_Some in Hn as [_ Hn]. done.
  - simpl. destruct (hasFailures _); auto.
  - simpl. destruct (String.eqb_spec (getMode this) "manual"); auto.
  - simpl. rewrite or_str_absent_or_empty.
    by destruct (getWorkflow_name this) as [[|c s]|].
  - simpl. rewrite or_str_absent_or_empty.
    destruct (getWorkflow_name this) as [[|c s]|]; auto.
  - intros Hne.
    assert (getInputData this ≠ []) as Hin.
    { intros Hnil. rewrite Hnil in Hn. discriminate. }
    rewrite resolved_mode_nonempty by done.
    destruct (String.eqb (param_executionMode this) "auto"); [|done].
    rewrite or_str_absent_or_empty.
    by destruct (first_mode (getInputData this)) as [[|c s]|].
Qed.

Lemma X8_record_is_well_formed_witness :
  let a := report_with_execution {| mode := None; script_id := Some "42" |} in
  let this := sample_context "auto" None [a] in
  let d := build_log_data this sample_runtime (aggregate [a]) 42 in
  logData_of this sample_runtime = Some d
  ∧ ILogData.script_id d ≠ 0
  ∧ ILogData.workflow_name d ≠ "".
Proof.
  intros a this d.
  assert (H : logData_of this sample_runtime = Some d) by reflexivity.
  destruct (X8_record_is_well_formed this sample_runtime d H)
    as (H1 & _ & _ & H2 & _).
  split; [exact H|]. split; [exact H1 | exact H2].
Defined.

(** ** The loop, further *)

Lemma loop_later_ignores_execution (rest rest' : list Report) (i : nat)
    (st : Locals) :
  Forall2 (λ a b, summary a = summary b ∧ details a = details b) rest rest' →
  loop (S i) rest st = loop (S i) rest' st.
Proof.
  intros H. revert i st.
  induction H as [|a b l l' [Hs Hd] _ IH]; intros i st; simpl; [done|].
  rewrite IH. f_equal. unfold loop_body. simpl. by rewrite Hs, Hd.
Qed.

(** X9.  Only the first report gives the run its identity: the [execution]
    field of every later report is ignored, so two sequences with the same
    first report whose later reports agree on [summary] and [details] give
    the same locals, hence the same record; a later report that names
    another [script_id] or [mode] is not detected. *)
Theorem X9_later_executions_are_ignored (first : Report)
    (rest rest' : list Report) :
  Forall2 (λ a b, summary a = summary b ∧ details a = details b) rest rest' →
  aggregate (first :: rest) = aggregate (first :: rest').
Proof.
  intros H. unfold aggregate. simpl.
  by apply loop_later_ignores_execution.
Qed.

Lemma X9_later_executions_are_ignored_witness :
  let first := report_with_execution {| mode := None; script_id := Some "7" |} in
  let b := report_with_items [JNumber 1] in
  let b' := with_execution
              (Some {| mode := Some "monthly"; script_id := Some "8" |}) b in
  Forall2 (λ a b, summary a = summary b ∧ details a = details b) [b] [b']
  ∧ aggregate [first; b] = aggregate [first; b']
  ∧ scriptId (aggregate [first; b']) = Some (Num 7).
Proof.
  intros first b b'.
  assert (H : Forall2 (λ a b, summary a = summary b ∧ details a = details b)
                [b] [b']) by (repeat constructor).
  pose proof (X9_later_executions_are_ignored first [b] [b'] H) as Heq.
  split; [exact H|]. split; [exact Heq|]. reflexivity.
Defined.

Lemma event_count_absent (event : string) (l : list Report) :
  existsb (has_event event) l = false →
  Zsum (event_count event <$> l) = 0.
Proof.
  induction l as [|r l IH]; [done|].
  intros H. simpl in H. apply orb_false_elim in H as [Hr Hl].
  rewrite fmap_cons. unfold Zsum in *. simpl. rewrite (IH Hl).
  unfold has_event in Hr. apply bool_decide_eq_false in Hr.
  unfold event_count.
  destruct (report_events r !! event); [|done].
  destruct Hr. by eexists.
Qed.

(** An event that no report has is not in the merged summary. *)
Lemma aggregate_events_absent (inputs : list Report) (event : string) :
  existsb (has_event event) inputs = false →
  mergedEventSummary (aggregate inputs) !! event = None.
Proof.
  rewrite aggregate_events, foldl_merge_events_lookup, lookup_empty.
  intros H.
  assert (Hacc : ∀ acc, key_total event acc (report_events <$> inputs) = acc);
    [|apply Hacc].
  unfold key_total.
  induction inputs as [|r l IH]; intros acc; csimpl; [done|].
  simpl in H. apply orb_false_elim in H as [Hr Hl].
  unfold has_event in Hr. apply bool_decide_eq_false in Hr.
  destruct (report_events r !! event) as [c|]; [|by apply IH].
  destruct Hr. by eexists.
Qed.

(** Under the name of a member of [Object.prototype] the merged summary
    never holds a number. *)
Lemma aggregate_events_not_number (inputs : list Report) (event : string)
    (z : Z) :
  is_prototype_member event = true →
  mergedEventSummary (aggregate inputs) !! event ≠ Some (VNumber z).
Proof.
  intros Hev.
  rewrite aggregate_events, foldl_merge_events_lookup, lookup_empty.
  unfold key_total.
  assert (Hinv : ∀ (ms : list (gmap string Z)) (acc : option jsval),
            (∀ x, acc ≠ Some (VNumber x)) →
            foldl (λ a m, match m !! event with
                          | Some c => entry_after event a c
                          | None => a
                          end) acc ms ≠ Some (VNumber z)).
  { induction ms as [|m ms IH]; intros acc Hacc; csimpl; [apply Hacc|].
    apply IH. intros x.
    destruct (m !! event) as [c|]; [|apply Hacc].
    unfold entry_after.
    destruct acc as [[y|t u]|]; [by destruct (Hacc y) | done |].
    unfold is_prototype_member in Hev.
    destruct (String.eqb event "__proto__"); [done|].
    rewrite orb_false_r in Hev. by rewrite Hev. }
  apply Hinv. done.
Qed.

(** X10.  Aggregation composes over concatenation, for counts in the range
    where the additions are exact: the aggregate of [l1 ++ l2] has the
    totals of [l1] plus those of [l2], the items of [l1] followed by those
    of [l2], a failure if either has one; for every event that is not named
    like a member of [Object.prototype], its entry in the merged summary is
    the sum of the entries of [l1] and of [l2] (the entry of either when the
    other has none); and its identity is the one of [l1] when [l1] is not
    empty. *)
Theorem X10_aggregate_of_concatenation (l1 l2 : list Report) :
  counts_exact (l1 ++ l2) →
  totalItemsProcessed (aggregate (l1 ++ l2))
    = totalItemsProcessed (aggregate l1) + totalItemsProcessed (aggregate l2)
  ∧ totalItemsNew (aggregate (l1 ++ l2))
    = totalItemsNew (aggregate l1) + totalItemsNew (aggregate l2)
  ∧ totalItemsDuplicates (aggregate (l1 ++ l2))
    = totalItemsDuplicates (aggregate l1) + totalItemsDuplicates (aggregate l2)
  ∧ totalItemsUpdated (aggregate (l1 ++ l2))
    = totalItemsUpdated (aggregate l1) + totalItemsUpdated (aggregate l2)
  ∧ allTransactionItems (aggregate (l1 ++ l2))
    = allTransactionItems (aggregate l1) ++ allTransactionItems (aggregate l2)
  ∧ hasFailures (aggregate (l1 ++ l2))
    = hasFailures (aggregate l1) || hasFailures (aggregate l2)
  ∧ (∀ event, is_prototype_member event = false →
       mergedEventSummary (aggregate (l1 ++ l2)) !! event
       = add_entries (mergedEventSummary (aggregate l1) !! event)
           (mergedEventSummary (aggregate l2) !! event))
  ∧ (l1 ≠ [] →
     scriptId (aggregate (l1 ++ l2)) = scriptId (aggregate l1)
     ∧ firstExecution (aggregate (l1 ++ l2)) = firstExecution (aggregate l1)).
Proof.
  intros _.
  destruct (aggregate_totals (l1 ++ l2)) as (-> & -> & -> & ->).
  destruct (aggregate_totals l1) as (-> & -> & -> & ->).
  destruct (aggregate_totals l2) as (-> & -> & -> & ->).
  rewrite !aggregate_items, !aggregate_failures.
  unfold sum_over. rewrite !fmap_app, !Zsum_app, concat_app, existsb_app.
  repeat (split; [reflexivity|]). split.
  - intros event Hev.
    rewrite !aggregate_events_lookup by done.
    rewrite existsb_app, fmap_app, Zsum_app.
    destruct (existsb (has_event event) l1) eqn:H1,
             (existsb (has_event event) l2) eqn:H2; simpl; try done.
    + rewrite (event_count_absent event l2 H2). do 2 f_equal. lia.
    + rewrite (event_count_absent event l1 H1). do 2 f_equal.
  - intros Hne. destruct l1 as [|r l1]; [done|]. simpl.
    destruct (aggregate_cons_identity r (l1 ++ l2)) as [-> ->].
    destruct (aggregate_cons_identity r l1) as [-> ->]. done.
Qed.

Lemma X10_aggregate_of_concatenation_witness :
  let a := report_with_events [("sale", 2); ("lead", 1)] in
  let b := report_with_events [("sale", 5)] in
  counts_exact ([a] ++ [b])
  ∧ mergedEventSummary (aggregate ([a] ++ [b])) !! "sale"
    = add_entries (mergedEventSummary (aggregate [a]) !! "sale")
        (mergedEventSummary (aggregate [b]) !! "sale")
  ∧ mergedEventSummary (aggregate ([a] ++ [b])) !! "sale"
    = Some (VNumber 7).
Proof.
  intros a b.
  assert (Hexact : counts_exact ([a] ++ [b]))
    by (unfold counts_exact; vm_compute; intros H; discriminate H).
  destruct (X10_aggregate_of_concatenation [a] [b] Hexact)
    as (_ & _ & _ & _ & _ & _ & Hm & _).
  split; [exact Hexact|]. split; [by apply Hm | by vm_compute].
Defined.

(** X11.  Counts that are not negative stay so: if in every report the four
    numeric fields and the counts of the event summary are not negative,
    then the four totals are not negative, no total is smaller than the
    field of any one report, and every number held by the merged summary is
    not negative (an entry under the name of a member of
    [Object.prototype] is never a number). *)
Theorem X11_totals_are_not_negative (inputs : list Report) :
  (∀ r, r ∈ inputs →
        0 ≤ summary_field total_input r ∧ 0 ≤ summary_field new_items r
        ∧ 0 ≤ summary_field exact_duplicates r
        ∧ 0 ≤ summary_field updated_items r
        ∧ ∀ event, 0 ≤ event_count event r) →
  let st := aggregate inputs in
  (∀ r, r ∈ inputs →
        0 ≤ summary_field total_input r ≤ totalItemsProcessed st
        ∧ 0 ≤ summary_field new_items r ≤ totalItemsNew st
        ∧ 0 ≤ summary_field exact_duplicates r ≤ totalItemsDuplicates st
        ∧ 0 ≤ summary_field updated_items r ≤ totalItemsUpdated st)
  ∧ 0 ≤ totalItemsProcessed st ∧ 0 ≤ totalItemsNew st
  ∧ 0 ≤ totalItemsDuplicates st ∧ 0 ≤ totalItemsUpdated st
  ∧ ∀ event c, mergedEventSummary st !! event = Some (VNumber c) → 0 ≤ c.
Proof.
  intros Hall st. subst st.
  assert (Hsum : ∀ (g : Report → Z) (l : list Report),
            (∀ r, r ∈ l → 0 ≤ g r) →
            0 ≤ Zsum (g <$> l) ∧ ∀ r, r ∈ l → g r ≤ Zsum (g <$> l)).
  { intros g l. induction l as [|x l IH]; intros Hl.
    - split; [done|]. intros r Hr. by apply elem_of_nil in Hr.
    - rewrite fmap_cons. unfold Zsum in *. simpl.
      destruct IH as [IH0 IHr].
      { intros r Hr. apply Hl. by right. }
      pose proof (Hl x (list_elem_of_here _ _)) as Hx.
      split; [lia|]. intros r Hr.
      apply elem_of_cons in Hr as [-> | Hr]; [lia|].
      specialize (IHr r Hr). lia. }
  destruct (aggregate_totals inputs) as (-> & -> & -> & ->).
  unfold sum_over.
  destruct (Hsum (summary_field total_input) inputs) as [Hp0 Hp];
    [intros r Hr; by apply Hall|].
  destruct (Hsum (summary_field new_items) inputs) as [Hn0 Hn];
    [intros r Hr; by apply Hall|].
  destruct (Hsum (summary_field exact_duplicates) inputs) as [Hd0 Hd];
    [intros r Hr; by apply Hall|].
  destruct (Hsum (summary_field updated_items) inputs) as [Hu0 Hu];
    [intros r Hr; by apply Hall|].
  split; [|repeat (split; [done|])].
  - intros r Hr. destruct (Hall r Hr) as (? & ? & ? & ? & _).
    specialize (Hp r Hr). specialize (Hn r Hr).
    specialize (Hd r Hr). specialize (Hu r Hr). lia.
  - intros event c Hc.
    destruct (is_prototype_member event) eqn:Hev.
    { by destruct (aggregate_events_not_number inputs event c Hev). }
    rewrite aggregate_events_lookup in Hc by done.
    destruct (existsb (has_event event) inputs); [|done].
    injection Hc as <-.
    apply (Hsum (event_count event) inputs).
    intros r Hr. by apply Hall.
Qed.

Lemma X11_totals_are_not_negative_witness :
  let a := report_with_summary
             {| total_input := Some 10; new_items := Some 3;
                exact_duplicates := None; updated_items := None;
                event_summary := Some {[ "sale" := 2 ]};
                failed_items := None |} in
  (∀ r, r ∈ [a] →
        0 ≤ summary_field total_input r ∧ 0 ≤ summary_field new_items r
        ∧ 0 ≤ summary_field exact_duplicates r
        ∧ 0 ≤ summary_field updated_items r
        ∧ ∀ event, 0 ≤ event_count event r)
  ∧ 0 ≤ totalItemsProcessed (aggregate [a])
  ∧ ∀ event c,
      mergedEventSummary (aggregate [a]) !! event = Some (VNumber c) → 0 ≤ c.
Proof.
  intros a.
  assert (H : ∀ r, r ∈ [a] →
        0 ≤ summary_field total_input r ∧ 0 ≤ summary_field new_items r
        ∧ 0 ≤ summary_field exact_duplicates r
        ∧ 0 ≤ summary_field updated_items r
        ∧ ∀ event, 0 ≤ event_count event r).
  { intros r Hr. apply list_elem_of_singleton in Hr. subst r.
    repeat (split; [done|]). intros event.
    unfold event_count, report_events, a. simpl.
    destruct (decide (event = "sale")) as [->|Hne].
    - by rewrite lookup_singleton_eq.
    - by rewrite lookup_singleton_ne. }
  destruct (X11_totals_are_not_negative [a] H) as (_ & Hp & _ & _ & _ & He).
  split; [exact H|]. split; [exact Hp | exact He].
Defined.

(** X12.  A failure item tells the two causes apart by its [script_id]: it
    is returned only when [failOnError] is not set, its [error] is the
    message of the error thrown in the [try] block and its [script_id] is
    the local [scriptId]; if the identifier was rejected, [script_id] is
    null, NaN or 0 and the message is the missing-identifier one; if the
    write failed, [script_id] is the nonzero identifier of the run and the
    error is one of the host. *)
Theorem X12_failure_item (this : IExecuteFunctions) (rt : Runtime)
    (results : list (list INodeExecutionData)) (item : INodeExecutionData)
    (message : string) (sid : option jsnum) :
  outcome (execute this rt) = inr results →
  item ∈ concat results →
  json_ item = ResultFailure message sid →
  let st := aggregate (getInputData this) in
  truthy_bool (failOnError (param_options this)) = false
  ∧ sid = scriptId st
  ∧ ((truthy_number sid = None ∧ message = missing_script_id_message
      ∧ rows_written (trace (execute this rt)) = [])
     ∨ (∃ n m, sid = Some (Num n) ∧ n ≠ 0 ∧ message = m
               ∧ outcome (try_block this rt st) = inl (HostError m))).
Proof.
  intros Hout Hin Hjson st. rewrite execute_rows. fold st.
  rewrite execute_outcome in Hout. fold st in Hout.
  destruct (truthy_number (scriptId st)) as [n|] eqn:Hn.
  - destruct (try_block_valid this rt st n Hn) as [[Ho | [m Ho]] _];
      rewrite Ho in *.
    + injection Hout as <-. simpl in Hin.
      apply list_elem_of_singleton in Hin. subst item. discriminate.
    + destruct (truthy_bool (failOnError (param_options this)));
        [discriminate|].
      injection Hout as <-. simpl in Hin.
      apply list_elem_of_singleton in Hin. subst item.
      injection Hjson as <- <-.
      split; [done|]. split; [done|]. right.
      apply truthy_number_Some in Hn as [Hs Hz].
      exists n, m. by repeat split.
  - rewrite (try_block_missing this rt st Hn) in *. simpl in Hout.
    destruct (truthy_bool (failOnError (param_options this)));
      [discriminate|].
    injection Hout as <-. simpl in Hin.
    apply list_elem_of_singleton in Hin. subst item.
    injection Hjson as <- <-.
    split; [done|]. split; [done|]. left. by repeat split.
Qed.

Lemma X12_failure_item_witness :
  let a := report_with_execution {| mode := None; script_id := Some "abc" |} in
  let this := sample_context "auto" None [a] in
  let item := {| json_ := ResultFailure missing_script_id_message (Some NaN);
                 pairedItem := 0 |} in
  outcome (execute this sample_runtime) = inr [[item]]
  ∧ truthy_bool (failOnError (param_options this)) = false
  ∧ Some NaN = scriptId (aggregate [a]).
Proof.
  intros a this item.
  assert (Hout : outcome (execute this sample_runtime) = inr [[item]])
    by reflexivity.
  assert (Hin : item ∈ concat [[item]]) by apply list_elem_of_here.
  destruct (X12_failure_item this sample_runtime [[item]] item
              missing_script_id_message (Some NaN) Hout Hin eq_refl)
    as (Hf & Hs & _).
  split; [exact Hout|]. split; [exact Hf | exact Hs].
Defined.

(** ** Reading the identifier *)

Lemma read_digits_uint (d : Decimal.uint) (junk : string) (seen : bool)
    (acc : Z) :
  starts_with_digit junk = false →
  read_digits (DecimalString.NilEmpty.string_of_uint d +:+ junk) seen acc
  = if match d with Decimal.Nil => seen | _ => true end
    then Some (uint_value acc d) else None.
Proof.
  intros Hjunk. revert seen acc.
  induction d as [|d IH|d IH|d IH|d IH|d IH|d IH|d IH|d IH|d IH|d IH];
    intros seen acc;
    try (simpl; rewrite IH; destruct d; reflexivity).
  simpl.
  destruct junk as [|c junk]; simpl; [done|].
  simpl in Hjunk. apply bool_decide_eq_false in Hjunk.
  destruct (digit_value c); [|done].
  destruct Hjunk. by eexists.
Qed.

Lemma uint_value_acc (d : Decimal.uint) (acc : positive) :
  uint_value (Z.pos acc) d = Z.pos (Pos.of_uint_acc d acc).
Proof.
  revert acc.
  induction d as [|d IH|d IH|d IH|d IH|d IH|d IH|d IH|d IH|d IH|d IH];
    intros acc; simpl; [done|..];
    rewrite <- IH; f_equal; lia.
Qed.

Lemma uint_value_of_uint (d : Decimal.uint) :
  uint_value 0 d = Z.of_uint d.
Proof.
  unfold Z.of_uint.
  induction d as [|d IH|d IH|d IH|d IH|d IH|d IH|d IH|d IH|d IH|d IH];
    simpl; [done | exact IH |..];
    rewrite <- uint_value_acc; reflexivity.
Qed.

Lemma skip_white_space_app (ws s : string) :
  all_white_space ws = true →
  skip_white_space (ws +:+ s) = skip_white_space s.
Proof.
  unfold all_white_space.
  assert (H : ∀ (n : nat) (w : string),
            (String.length w <= n)%nat →
            skip_white_space w = "" →
            skip_white_space (w +:+ s) = skip_white_space s).
  { induction n as [|n IH]; intros w Hlen Hw.
    - destruct w; [done | simpl in Hlen; lia].
    - destruct w as [|c1 s1]; [done|].
      simpl in Hlen, Hw |- *.
      destruct (is_white_space c1); [apply IH; [lia | done]|].
      destruct s1 as [|c2 s2]; [done|].
      simpl in Hlen, Hw |- *.
      destruct (is_white_space2 c1 c2); [apply IH; [lia | done]|].
      destruct s2 as [|c3 s3]; [done|].
      simpl in Hlen, Hw |- *.
      destruct (is_white_space3 c1 c2 c3); [apply IH; [lia | done]|].
      done. }
  intros Hws. apply (H (String.length ws)); [lia|].
  by destruct (skip_white_space ws).
Qed.

(** A digit or a sign is not the first byte of white space. *)
Lemma skip_white_space_digit (c : ascii) (s : string) :
  is_Some (digit_value c) ∨ c = "-"%char ∨ c = "+"%char →
  skip_white_space (String c s) = String c s.
Proof.
  intros Hc.
  assert (Hn : (43 <= N_of_ascii c <= 57)%N).
  { destruct Hc as [[d Hd] | [-> | ->]]; [|by vm_compute..].
    unfold digit_value in Hd.
    destruct (48 <=? N_of_ascii c)%N eqn:H1; [|done].
    destruct (N_of_ascii c <=? 57)%N eqn:H2; [|done].
    apply N.leb_le in H1, H2. lia. }
  assert (H1 : is_white_space c = false).
  { unfold is_white_space. cbv zeta.
    repeat match goal with
    | |- context [(N_of_ascii c =? ?k)%N] =>
        replace (N_of_ascii c =? k)%N with false
          by (symmetry; apply N.eqb_neq; lia)
    end. done. }
  assert (H2 : ∀ c2, is_white_space2 c c2 = false).
  { intros c2. unfold is_white_space2.
    replace (N_of_ascii c =? 194)%N with false
      by (symmetry; apply N.eqb_neq; lia). done. }
  assert (H3 : ∀ c2 c3, is_white_space3 c c2 c3 = false).
  { intros c2 c3. unfold is_white_space3. cbv zeta.
    repeat match goal with
    | |- context [(N_of_ascii c =? ?k)%N] =>
        replace (N_of_ascii c =? k)%N with false
          by (symmetry; apply N.eqb_neq; lia)
    end. done. }
  simpl. rewrite H1.
  destruct s as [|c2 s2]; [done|]. rewrite H2.
  destruct s2 as [|c3 s3]; [done|]. by rewrite H3.
Qed.

Lemma nearest_double_exact (z : Z) :
  Z.abs z ≤ 2 ^ 53 → nearest_double z = z.
Proof.
  intros Hz. unfold nearest_double. cbv zeta.
  destruct (Z.ltb_spec (Z.abs z) (2 ^ 53)) as [|Hge]; [done|].
  assert (z = 2 ^ 53 ∨ z = - 2 ^ 53) as [-> | ->] by lia;
    by vm_compute.
Qed.

(** [parseInt] on a sequence of digits with an optional minus sign, after
    white space and before anything that is not a digit. *)
Lemma parseInt_decimal (d : Decimal.int) (ws junk : string) :
  match d with Decimal.Pos u | Decimal.Neg u => u ≠ Decimal.Nil end →
  all_white_space ws = true →
  starts_with_digit junk = false →
  parseInt (ws +:+ DecimalString.NilEmpty.string_of_int d +:+ junk)
  = Num (nearest_double (Z.of_int d)).
Proof.
  intros Hd Hws Hjunk. unfold parseInt.
  rewrite skip_white_space_app by done.
  destruct d as [u|u]; simpl DecimalString.NilEmpty.string_of_int.
  - assert (skip_white_space
              (DecimalString.NilEmpty.string_of_uint u +:+ junk)
            = DecimalString.NilEmpty.string_of_uint u +:+ junk) as ->.
    { destruct u; [done|..];
        cbn [DecimalString.NilEmpty.string_of_uint];
        match goal with
        | |- skip_white_space (String ?c ?s +:+ ?j) = _ =>
            change (skip_white_space (String c (s +:+ j))
                    = String c (s +:+ j))
        end;
        apply skip_white_space_digit; left; by eexists. }
    assert (Hbody :
      (match DecimalString.NilEmpty.string_of_uint u +:+ junk with
       | String "-" r => (-1, r)
       | String "+" r => (1, r)
       | _ => (1, DecimalString.NilEmpty.string_of_uint u +:+ junk)
       end)
      = (1, DecimalString.NilEmpty.string_of_uint u +:+ junk))
      by (by destruct u).
    rewrite Hbody, read_digits_uint by done.
    destruct u; try done; simpl Z.of_int;
      rewrite <- uint_value_of_uint; do 2 f_equal;
      by destruct (uint_value 0 _).
  - change (String "-" (DecimalString.NilEmpty.string_of_uint u) +:+ junk)
      with (String "-" (DecimalString.NilEmpty.string_of_uint u +:+ junk)).
    rewrite skip_white_space_digit by (right; by left).
    cbv beta iota zeta. rewrite read_digits_uint by done.
    destruct u; try done; simpl Z.of_int;
      rewrite <- uint_value_of_uint; do 2 f_equal;
      by destruct (uint_value 0 _).
Qed.

Lemma decimal_text_eq (z : Z) :
  decimal_text z = DecimalString.NilEmpty.string_of_int (Z.to_int z)
  ∧ match Z.to_int z with
    | Decimal.Pos u | Decimal.Neg u => u ≠ Decimal.Nil
    end.
Proof.
  unfold decimal_text.
  destruct z as [|p|p]; simpl; [done|..];
    pose proof (DecimalPos.Unsigned.to_uint_nonnil p) as Hp;
    (split; [|done]);
    unfold DecimalString.NilZero.string_of_uint;
    by destruct (Pos.to_uint p).
Qed.

(** X13.  Reading back an identifier: if the first report's
    [execution.script_id] is the decimal text of an integer [z] of
    magnitude at most 2^53 (the integers that a double holds exactly),
    possibly after white space and possibly followed by characters that do
    not start with a digit, the loop leaves [scriptId = z]; the invocation
    accepts it exactly when [z] is not 0.  So " 42" and "42abc" are read as
    42. *)
Theorem X13_identifier_read_back (inputs : list Report) (z : Z)
    (ws junk : string) :
  Z.abs z ≤ 2 ^ 53 →
  all_white_space ws = true →
  starts_with_digit junk = false →
  first_script_id inputs = Some (ws +:+ decimal_text z +:+ junk) →
  parseInt (ws +:+ decimal_text z +:+ junk) = Num z
  ∧ scriptId (aggregate inputs) = Some (Num z)
  ∧ truthy_number (scriptId (aggregate inputs))
    = (if z =? 0 then None else Some z).
Proof.
  intros Hz Hws Hjunk Hfirst.
  destruct (decimal_text_eq z) as [Htext Hnil].
  assert (Hparse : parseInt (ws +:+ decimal_text z +:+ junk) = Num z).
  { rewrite Htext, parseInt_decimal by done.
    by rewrite DecimalZ.of_to, nearest_double_exact. }
  assert (Hsid : scriptId (aggregate inputs) = Some (Num z)).
  { rewrite aggregate_scriptId, Hfirst.
    destruct (ws +:+ decimal_text z +:+ junk) as [|c s] eqn:Hs;
      [by rewrite parseInt_empty in Hparse|].
    by rewrite Hparse. }
  split; [exact Hparse|]. split; [exact Hsid|]. by rewrite Hsid.
Qed.

Lemma X13_identifier_read_back_witness :
  let inputs :=
    [report_with_execution {| mode := None; script_id := Some " 42abc" |}] in
  Z.abs 42 ≤ 2 ^ 53
  ∧ all_white_space " " = true
  ∧ starts_with_digit "abc" = false
  ∧ first_script_id inputs = Some (" " +:+ decimal_text 42 +:+ "abc")
  ∧ scriptId (aggregate inputs) = Some (Num 42).
Proof.
  intros inputs.
  assert (Hz : Z.abs 42 ≤ 2 ^ 53) by (vm_compute; intros H; discriminate H).
  destruct (X13_identifier_read_back inputs 42 " " "abc"
              Hz eq_refl eq_refl eq_refl) as (_ & H & _).
  split; [exact Hz|]. split; [reflexivity|]. split; [reflexivity|].
  split; [reflexivity | exact H].
Defined.

(** White space of more than one byte is skipped too, and an identifier
    above 2^53 is read as the nearest double. *)
Example parseInt_white_space_and_rounding :
  parseInt (String (ascii_of_N 194) (String (ascii_of_N 160) "42")) = Num 42
  ∧ parseInt "9007199254740993" = Num 9007199254740992
  ∧ parseInt "12345678901234567890" = Num 12345678901234567168.
Proof. by vm_compute. Qed.

(** X14.  An identifier without a digit where one is expected is rejected:
    if, after white space and an optional sign, the text of the first
    report's [execution.script_id] is empty or starts with a character
    that is not a digit (and, when there is no sign, is neither white
    space nor a sign), [parseInt] gives NaN, the invocation throws the
    missing-identifier error and hands nothing to the database. *)
Theorem X14_non_numeric_identifier (this : IExecuteFunctions) (rt : Runtime)
    (ws sign rest : string) :
  all_white_space ws = true →
  sign = "" ∨ sign = "-" ∨ sign = "+" →
  starts_with_digit rest = false →
  (sign = "" → skip_white_space rest = rest ∧ starts_with_sign rest = false) →
  first_script_id (getInputData this) = Some (ws +:+ sign +:+ rest) →
  parseInt (ws +:+ sign +:+ rest) = NaN
  ∧ raises_missing_script_id this rt
  ∧ rows_written (trace (execute this rt)) = [].
Proof.
  intros Hws Hsign Hrest Hfirst_char Hfirst.
  assert (Hdigits : read_digits rest false 0 = None).
  { destruct rest as [|c r]; simpl; [done|].
    simpl in Hrest. apply bool_decide_eq_false in Hrest.
    destruct (digit_value c); [|done]. destruct Hrest. by eexists. }
  assert (Hparse : parseInt (ws +:+ sign +:+ rest) = NaN).
  { unfold parseInt. rewrite skip_white_space_app by done.
    destruct Hsign as [-> | [-> | ->]].
    - destruct (Hfirst_char eq_refl) as [Hskip Hs].
      change ("" +:+ rest) with rest. rewrite Hskip.
      assert ((match rest with
               | String "-" r0 => (-1, r0)
               | String "+" r0 => (1, r0)
               | _ => (1, rest)
               end) = (1, rest)) as ->.
      { destruct rest as [|c r]; [done|].
        destruct c as [[|] [|] [|] [|] [|] [|] [|] [|]]; try done. }
      cbv beta iota zeta. by rewrite Hdigits.
    - change ("-" +:+ rest) with (String "-" rest).
      rewrite skip_white_space_digit by (right; by left).
      cbv beta iota zeta. by rewrite Hdigits.
    - change ("+" +:+ rest) with (String "+" rest).
      rewrite skip_white_space_digit by (right; by right).
      cbv beta iota zeta. by rewrite Hdigits. }
  assert (Hraise : raises_missing_script_id this rt).
  { apply raises_missing_script_id_iff.
    rewrite aggregate_scriptId, Hfirst.
    destruct (ws +:+ sign +:+ rest) as [|c s]; [done|].
    by rewrite Hparse. }
  split; [exact Hparse|]. split; [exact Hraise|].
  by apply raises_writes_nothing.
Qed.

Lemma X14_non_numeric_identifier_witness :
  let this :=
    sample_context "auto" None
      [report_with_execution {| mode := None; script_id := Some " -x1" |}] in
  first_script_id (getInputData this) = Some (" " +:+ "-" +:+ "x1")
  ∧ parseInt " -x1" = NaN
  ∧ raises_missing_script_id this sample_runtime.
Proof.
  intros this.
  assert (Hsign : "-" = "" ∨ "-" = "-" ∨ "-" = "+") by (right; left; done).
  destruct (X14_non_numeric_identifier this sample_runtime " " "-" "x1"
              eq_refl Hsign eq_refl (λ H, match H with end ) eq_refl)
    as (Hp & Hr & _).
  split; [reflexivity|]. split; [exact Hp | exact Hr].
Defined.

(** ** The calls to the database of one invocation *)

(** X15.  The calls to the database of an invocation are those of one
    [insertLog] of the record, made with the node parameters [database] and
    [table], when the identifier passed the validation, and none
    otherwise: nothing is retried, nothing is written from the [catch]
    block, and the database is not contacted for a rejected identifier. *)
Theorem X15_database_calls (this : IExecuteFunctions) (rt : Runtime) :
  filter (λ ev, is_database_event ev = true) (trace (execute this rt))
  = match logData_of this rt with
    | Some d =>
        trace (insertLog this rt (param_database this) (param_table this) d)
    | None => []
    end.
Proof.
  rewrite execute_eq. cbv zeta. rewrite try_block_eq. unfold logData_of.
  destruct (truthy_number (scriptId (aggregate (getInputData this))))
    as [n|]; cbv zeta; cbn [fmap option_fmap option_map].
  - set (d := build_log_data this rt (aggregate (getInputData this)) n).
    pose proof (insertLog_database_events this rt (param_database this)
                  (param_table this) d) as Hdb.
    assert (Hfilter :
      filter (λ ev, is_database_event ev = true)
        ((if truthy_bool (verboseLogging (param_options this))
          then [verbose_event rt d] else [])
         ++ trace (insertLog this rt (param_database this)
                     (param_table this) d))
      = trace (insertLog this rt (param_database this)
                 (param_table this) d)).
    { rewrite filter_app.
      assert (filter (λ ev, is_database_event ev = true)
                (if truthy_bool (verboseLogging (param_options this))
                 then [verbose_event rt d] else []) = []) as ->
        by (by destruct (truthy_bool _)).
      simpl. clear -Hdb. induction Hdb as [|ev l Hev _ IH]; [done|].
      rewrite filter_cons_True by done. by rewrite IH. }
    unfold outcome, trace in *. cbn [fst snd] in *.
    destruct (insertLog this rt (param_database this) (param_table this) d).2
      as [e|[]]; cbn [fst snd].
    + destruct (truthy_bool (failOnError (param_options this)));
        cbn [fst]; [exact Hfilter|].
      rewrite filter_app, Hfilter. simpl. by rewrite app_nil_r.
    + exact Hfilter.
  - unfold outcome, trace. cbn [fst snd].
    by destruct (truthy_bool (failOnError (param_options this))).
Qed.

(** ** The merged summary of ordinary events *)

(** X16.  For counts in the range where the additions are exact, permuting
    the reports changes neither the four totals nor, for an event that is
    not named like a member of [Object.prototype], its entry in the merged
    summary: that entry is the sum of the event's counts over all reports,
    a report lacking the event contributing 0, and there is no entry when
    no report has the event.  If no report has an event named like such a
    member, the merged summaries of the two orders are equal. *)
Theorem X16_merge_of_ordinary_events (l1 l2 : list Report) :
  l1 ≡ₚ l2 →
  counts_exact l1 →
  (totalItemsProcessed (aggregate l1) = totalItemsProcessed (aggregate l2)
   ∧ totalItemsNew (aggregate l1) = totalItemsNew (aggregate l2)
   ∧ totalItemsDuplicates (aggregate l1) = totalItemsDuplicates (aggregate l2)
   ∧ totalItemsUpdated (aggregate l1) = totalItemsUpdated (aggregate l2))
  ∧ (∀ event, is_prototype_member event = false →
       mergedEventSummary (aggregate l1) !! event
       = mergedEventSummary (aggregate l2) !! event
       ∧ mergedEventSummary (aggregate l1) !! event
         = if existsb (has_event event) l1
           then Some (VNumber (Zsum (event_count event <$> l1)))
           else None)
  ∧ ((∀ r event, r ∈ l1 → has_event event r = true →
                 is_prototype_member event = false) →
     mergedEventSummary (aggregate l1) = mergedEventSummary (aggregate l2)).
Proof.
  intros Hperm _.
  assert (Hkey : ∀ event, is_prototype_member event = false →
            mergedEventSummary (aggregate l1) !! event
            = mergedEventSummary (aggregate l2) !! event).
  { intros event Hev. rewrite !aggregate_events_lookup by done.
    rewrite (existsb_Permutation _ l1 l2 Hperm).
    rewrite (Zsum_Permutation (event_count event <$> l1)
               (event_count event <$> l2)); [done|].
    by apply fmap_Permutation. }
  split; [|split].
  - destruct (aggregate_totals l1) as (-> & -> & -> & ->).
    destruct (aggregate_totals l2) as (-> & -> & -> & ->).
    by rewrite !(sum_over_Permutation _ l1 l2 Hperm).
  - intros event Hev. split; [by apply Hkey|].
    by apply aggregate_events_lookup.
  - intros Hnone. apply map_eq. intros event.
    destruct (is_prototype_member event) eqn:Hev; [|by apply Hkey].
    assert (existsb (has_event event) l1 = false) as H1.
    { destruct (existsb (has_event event) l1) eqn:Hex; [|done].
      apply existsb_exists in Hex as (r & Hin & Hr).
      apply list_elem_of_In in Hin.
      rewrite (Hnone r event Hin Hr) in Hev. discriminate Hev. }
    rewrite !aggregate_events_absent; [done | | done].
    by rewrite <- (existsb_Permutation _ l1 l2 Hperm).
Qed.

Lemma X16_merge_of_ordinary_events_witness :
  let first := report_with_execution {| mode := None; script_id := Some "7" |} in
  let a := report_with_events [("sale", 2); ("lead", 1)] in
  let b := report_with_events [("sale", 5)] in
  [first; a; b] ≡ₚ [first; b; a]
  ∧ counts_exact [first; a; b]
  ∧ mergedEventSummary (aggregate [first; a; b]) !! "sale"
    = mergedEventSummary (aggregate [first; b; a]) !! "sale"
  ∧ mergedEventSummary (aggregate [first; a; b]) !! "sale"
    = Some (VNumber 7).
Proof.
  intros first a b.
  assert (Hperm : [first; a; b] ≡ₚ [first; b; a])
    by (apply perm_skip, perm_swap).
  assert (Hexact : counts_exact [first; a; b])
    by (unfold counts_exact; vm_compute; intros H; discriminate H).
  destruct (X16_merge_of_ordinary_events [first; a; b] [first; b; a]
              Hperm Hexact) as (_ & Hkey & _).
  destruct (Hkey "sale" eq_refl) as [Heq Hsum].
  split; [exact Hperm|]. split; [exact Hexact|]. split; [exact Heq|].
  rewrite Hsum. by vm_compute.
Defined.
